(** * Real-time stock dashboard: the normalisation and metrics pipeline

    A shallow embedding of [stocks_dashboard.py].  A pandas [DataFrame] is a
    record of column labels, a row index and one series per column; the
    functions of the script that can raise return a [result]; the two
    module-level handlers (main chart, watchlist loop) run in a small
    writer-and-exception monad [io] that records the calls they make to
    the data source and to the display layer.  A cell of a numeric column
    is the rational that its float denotes ([None] for NaN); the arithmetic
    of Python floats is done in binary64, on the primitive floats. *)

From Stdlib Require Import Floats.
From Stdlib Require Import Ascii String QArith Qround Qabs.
From stdpp Require Import gmap strings list fin_maps.

Open Scope string_scope.

(** ** Exceptions and results *)

Inductive Exn :=
| KeyError (key : string)
| AttributeError (attr : string)
| TypeError
| ValueError
| IndexError
| ZeroDivisionError
| DataError
| DownloadError (msg : string).

Inductive result (A : Type) :=
| OK (a : A)
| Raise (e : Exn).
Arguments OK {A} a.
Arguments Raise {A} e.

Global Instance result_ret : MRet result := λ A a, OK a.
Global Instance result_bind : MBind result := λ A B f r,
  match r with
  | OK a => f a
  | Raise e => Raise e
  end.

Global Instance result_fmap : FMap result := λ A B f r,
  match r with
  | OK a => OK (f a)
  | Raise e => Raise e
  end.

(** ** Python string operations used on column labels *)

Module PyStr.

(** [str.isspace] on the code points below 256. *)
Definition is_space (c : ascii) : bool :=
  let n := nat_of_ascii c in
  ((9 <=? n)%nat && (n <=? 13)%nat) || ((28 <=? n)%nat && (n <=? 32)%nat)
  || (n =? 133)%nat || (n =? 160)%nat.

Fixpoint lstrip (s : string) : string :=
  match s with
  | String c s' => if is_space c then lstrip s' else s
  | EmptyString => EmptyString
  end.

Fixpoint rstrip (s : string) : string :=
  match s with
  | EmptyString => EmptyString
  | String c s' =>
      match rstrip s' with
      | EmptyString => if is_space c then EmptyString else String c EmptyString
      | r => String c r
      end
  end.

(** [s.strip()] *)
Definition strip (s : string) : string := rstrip (lstrip s).

(** [sep.join(parts)] *)
Fixpoint join (sep : string) (parts : list string) : string :=
  match parts with
  | [] => EmptyString
  | [p] => p
  | p :: ps => p +:+ sep +:+ join sep ps
  end.

(** [sub in s] *)
Fixpoint contains (sub s : string) : bool :=
  String.prefix sub s ||
  match s with
  | EmptyString => false
  | String _ s' => contains sub s'
  end.

End PyStr.

(** ** Data frames *)

(** Column labels: a flat [pd.Index] of strings, or a [pd.MultiIndex] whose
    labels are tuples of strings. *)
Inductive Columns :=
| Index (labels : list string)
| MultiIndex (tuples : list (list string)).

(** Row index: a [DatetimeIndex] (instants as integers, with an optional
    timezone label) or the integer [RangeIndex] that [reset_index] leaves. *)
Inductive RowIndex :=
| DatetimeIndex (name : option string) (tz : option string) (ts : list Z)
| RangeIndex (name : option string) (n : nat).

(** A cell of a numeric column: the rational that a finite float denotes;
    [None] is NaN in a column and, in the result of an operation, a float
    that is not finite. *)
Definition cell := option Q.

Inductive Series :=
| Float64 (xs : list cell)
| Datetime64 (tz : option string) (ts : list Z).

Record DataFrame := mkDataFrame {
  columns : Columns;
  index : RowIndex;
  data : list Series
}.

Definition index_len (ix : RowIndex) : nat :=
  match ix with
  | DatetimeIndex _ _ ts => length ts
  | RangeIndex _ n => n
  end.

Definition index_name (ix : RowIndex) : option string :=
  match ix with
  | DatetimeIndex name _ _ => name
  | RangeIndex name _ => name
  end.

(** The index as a column, as [reset_index] stores it. *)
Definition index_values (ix : RowIndex) : Series :=
  match ix with
  | DatetimeIndex _ tz ts => Datetime64 tz ts
  | RangeIndex _ n => Float64 ((λ i, Some (inject_Z (Z.of_nat i))) <$> seq 0 n)
  end.

(** [len(df)] *)
Definition len (df : DataFrame) : nat := index_len (index df).

Definition ncols (df : DataFrame) : nat :=
  match columns df with
  | Index labels => length labels
  | MultiIndex tuples => length tuples
  end.

(** [df.empty]: some axis has length 0. *)
Definition empty (df : DataFrame) : bool :=
  (len df =? 0)%nat || (ncols df =? 0)%nat.

(** [df.rename(columns={old: new})] on flat labels. *)
Definition rename1 (old new : string) (labels : list string) : list string :=
  (λ l, if decide (l = old) then new else l) <$> labels.

(** [df.rename(columns=col_map)] on flat labels. *)
Definition rename (col_map : gmap string string) (labels : list string)
  : list string :=
  (λ l, default l (col_map !! l)) <$> labels.

(** ** process_data *)

(** [' '.join(col).strip()] *)
Definition flatten_label (col : list string) : string :=
  PyStr.strip (PyStr.join " " col).

(** [tz_localize('UTC')], applied only when [tzinfo is None]. *)
Definition tz_fixup (tz : option string) : option string :=
  match tz with
  | None => Some "UTC"
  | Some z => Some z
  end.

(** [tz_convert('US/Eastern')]: the instants stay, the label changes. *)
Definition tz_convert (zone : string) (tz : option string) : option string :=
  match tz with
  | None => None
  | Some _ => Some zone
  end.

(** The name [reset_index] gives the new column. *)
Definition reset_name (name : option string) (labels : list string) : string :=
  match name with
  | Some n => n
  | None => if decide ("index" ∈ labels) then "level_0" else "index"
  end.

(** [df.reset_index(inplace=True)] on a frame with flat [labels]. *)
Definition reset_index (labels : list string) (ix : RowIndex)
    (cols : list Series) : result DataFrame :=
  let name := reset_name (index_name ix) labels in
  if decide (name ∈ labels) then Raise ValueError
  else OK {| columns := Index (name :: labels);
             index := RangeIndex None (index_len ix);
             data := index_values ix :: cols |}.

(** The renaming at the end of [process_data]. *)
Definition name_datetime (labels : list string) : list string :=
  if decide ("Date" ∈ labels) then rename1 "Date" "Datetime" labels
  else if decide ("Datetime" ∈ labels) then labels
  else match labels with
       | [] => labels
       | first :: _ => rename1 first "Datetime" labels
       end.

(** The labels after the flattening of a [MultiIndex]:
    [[' '.join(col).strip() for col in data.columns.values]]. *)
Definition flat_labels (c : Columns) : list string :=
  match c with
  | MultiIndex tuples => flatten_label <$> tuples
  | Index labels => labels
  end.

Definition process_data (df : DataFrame) : result DataFrame :=
  let labels := flat_labels (columns df) in
  match index df with
  | RangeIndex _ _ => Raise (AttributeError "tzinfo")
  | DatetimeIndex name tz ts =>
      let ix := DatetimeIndex name (tz_convert "US/Eastern" (tz_fixup tz)) ts in
      df' ← reset_index labels ix (data df);
      OK {| columns := Index (name_datetime (flat_labels (columns df')));
            index := index df'; data := data df' |}
  end.

(** ** normalize_column_names *)

(** The [if]/[elif] chain of the loop body: the canonical name a label
    maps to, if any. *)
Definition canonical_name (col : string) : option string :=
  if PyStr.contains "Open" col then Some "Open"
  else if PyStr.contains "High" col then Some "High"
  else if PyStr.contains "Low" col then Some "Low"
  else if PyStr.contains "Close" col then Some "Close"
  else if PyStr.contains "Volume" col then Some "Volume"
  else None.

(** The dictionary the loop builds, one label at a time. *)
Definition build_col_map (labels : list string) : gmap string string :=
  foldl (λ col_map col,
           match canonical_name col with
           | Some c => <[col := c]> col_map
           | None => col_map
           end) ∅ labels.

(** On a [MultiIndex] the labels are tuples: [in] is then tuple membership
    and the keys of [col_map] are tuples, which [rename] never finds among
    the level values, so the labels stay. *)
Definition normalize_column_names (df : DataFrame) : DataFrame :=
  match columns df with
  | Index labels =>
      {| columns := Index (rename (build_col_map labels) labels);
         index := index df; data := data df |}
  | MultiIndex _ => df
  end.

(** The Normalizer of the specification. *)
Definition normalizer (df : DataFrame) : result DataFrame :=
  normalize_column_names <$> process_data df.

(** ** Column selection *)

(** What [df[label]] returns: a one-dimensional series, or a frame when
    several columns answer to the label. *)
Inductive Selection :=
| Col (s : Series)
| Frame (cols : list Series).

(** The series of the columns whose label satisfies [p], in column order. *)
Fixpoint select {L : Type} (p : L → bool) (labels : list L)
    (cols : list Series) : list Series :=
  match labels, cols with
  | l :: labels', s :: cols' =>
      if p l then s :: select p labels' cols' else select p labels' cols'
  | _, _ => []
  end.

(** A tuple label whose first level is [label] and whose other levels are
    empty strings. *)
Definition top_level_only (label : string) (t : list string) : Prop :=
  head t = Some label ∧ Forall (λ x, x = EmptyString) (tail t).

Global Instance top_level_only_dec label t : Decision (top_level_only label t).
Proof. unfold top_level_only. apply _. Defined.

(** [df[label]].  On flat labels one match is a series and several are a
    frame; on a [MultiIndex] the label is looked up in the first level and
    the answer is a frame, except for a single column whose remaining
    levels are empty strings. *)
Definition getitem (df : DataFrame) (label : string) : result Selection :=
  match columns df with
  | Index labels =>
      match select (λ l, bool_decide (l = label)) labels (data df) with
      | [] => Raise (KeyError label)
      | [s] => OK (Col s)
      | ss => OK (Frame ss)
      end
  | MultiIndex tuples =>
      match select (λ t, bool_decide (head t = Some label)) tuples (data df) with
      | [] => Raise (KeyError label)
      | [s] =>
          if bool_decide (Exists (top_level_only label) tuples)
          then OK (Col s) else OK (Frame [s])
      | ss => OK (Frame ss)
      end
  end.

Definition series_len (s : Series) : nat :=
  match s with
  | Float64 xs => length xs
  | Datetime64 _ ts => length ts
  end.

(** Python indexing of a sequence, negative positions counting from the end. *)
Definition py_index {A : Type} (xs : list A) (i : Z) : option A :=
  let n := Z.of_nat (length xs) in
  if decide (0 ≤ i < n)%Z then xs !! Z.to_nat i
  else if decide (- n ≤ i < 0)%Z then xs !! Z.to_nat (n + i)
  else None.

(** [float(sel.iloc[i])].  A position out of range is an [IndexError]; a
    timestamp is not a number, and the row of a frame is a series, which
    [float] refuses whatever its length. *)
Definition float_iloc (sel : Selection) (i : Z) : result cell :=
  match sel with
  | Col (Float64 xs) =>
      match py_index xs i with
      | Some x => OK x
      | None => Raise IndexError
      end
  | Col (Datetime64 _ ts) =>
      match py_index ts i with
      | Some _ => Raise TypeError
      | None => Raise IndexError
      end
  | Frame [] => Raise IndexError
  | Frame (s :: _) =>
      match py_index (seq 0 (series_len s)) i with
      | Some _ => Raise TypeError
      | None => Raise IndexError
      end
  end.

(** ** Float arithmetic, with NaN *)

(** The exponent of a power of two. *)
Fixpoint log2_exact (d : positive) : option Z :=
  match d with
  | xH => Some 0%Z
  | xO p => Z.succ <$> log2_exact p
  | xI _ => None
  end.

(** The binary64 float nearest to an integer. *)
Definition float_of_Z (n : Z) : float :=
  SF2Prim (binary_normalize prec emax n 0 false).

(** The binary64 float that a rational denotes.  A dyadic rational is
    rounded to the nearest float, which is the rational itself when it is
    the value of a float; any other quotient is divided in binary64. *)
Definition to_float (q : Q) : float :=
  match log2_exact (Qden q) with
  | Some k => SF2Prim (binary_normalize prec emax (Qnum q) (- k) false)
  | None => (float_of_Z (Qnum q) / float_of_Z (Zpos (Qden q)))%float
  end.

(** The rational that a finite float denotes, exactly; there is none for
    NaN and the infinities. *)
Definition of_float (f : float) : cell :=
  match Prim2SF f with
  | S754_zero _ => Some 0%Q
  | S754_finite s m e =>
      let n := if s then Zneg m else Zpos m in
      Some (match e with
            | Z0 => n # 1
            | Zpos p => (n * 2 ^ Zpos p) # 1
            | Zneg p => n # (2 ^ p)
            end)
  | S754_infinity _ | S754_nan => None
  end.

(** Subtraction and multiplication of Python floats, in binary64: the
    operands are taken as floats, the operation is that of the primitive
    floats and its result is read back exactly. *)
Definition fsub (a b : cell) : cell :=
  match a, b with
  | Some x, Some y => of_float (to_float x - to_float y)
  | _, _ => None
  end.

Definition fmul (a b : cell) : cell :=
  match a, b with
  | Some x, Some y => of_float (to_float x * to_float y)
  | _, _ => None
  end.

(** Division of Python floats: a zero divisor raises, whatever the dividend. *)
Definition fdiv (a b : cell) : result cell :=
  match b with
  | Some y =>
      if Qeq_bool y 0 then Raise ZeroDivisionError
      else OK (match a with
               | Some x => of_float (to_float x / to_float y)
               | None => None
               end)
  | None => OK None
  end.

Definition qmax (x y : Q) : Q := if Qle_bool x y then y else x.
Definition qmin (x y : Q) : Q := if Qle_bool x y then x else y.

(** Reductions of a numeric column skip NaN. *)
Definition nanreduce (f : Q → Q → Q) (xs : list cell) : cell :=
  foldl (λ acc c,
           match c, acc with
           | Some x, Some m => Some (f m x)
           | Some x, None => Some x
           | None, _ => acc
           end) None xs.

(** [float(sel.max())] and [float(sel.min())]: the reduction of a frame is
    a series, which [float] refuses. *)
Definition float_reduce (f : Q → Q → Q) (sel : Selection) : result cell :=
  match sel with
  | Col (Float64 xs) => OK (nanreduce f xs)
  | _ => Raise TypeError
  end.

(** The sum of a numeric column, NaN skipped, and [int(x)] on a finite
    float: truncation towards zero. *)
Definition nansum (xs : list cell) : Q :=
  foldl (λ acc c, match c with Some x => (acc + x)%Q | None => acc end) 0%Q xs.

Definition truncate (q : Q) : Z :=
  if Qle_bool 0 q then Qfloor q else Qceiling q.

(** The sum of the magnitudes of the cells, NaN apart. *)
Definition magnitude (xs : list cell) : Q :=
  foldr (λ c acc, match c with Some x => (Qabs x + acc)%Q | None => acc end)
    0%Q xs.

(** A whole number, and the power of two [2^k]. *)
Definition whole (q : Q) : bool := Qeq_bool q (inject_Z (Qfloor q)).
Definition scale (k : nat) : Q := inject_Z (2 ^ Z.of_nat k).

(** The columns that numpy adds without rounding, in whatever order: for
    some [k] every cell is a whole multiple of [2^-k] (of 1 in a column of
    integers) and the magnitudes total at most [2^53] such multiples.  Every
    partial sum is then a number that binary64 holds exactly (and, for
    [k = 0], one that 64-bit integers hold). *)
Definition exact_at (k : nat) (xs : list cell) : bool :=
  forallb (λ c, match c with
                | Some x => whole (x * scale k)
                | None => true
                end) xs
  && Qle_bool (magnitude xs * scale k) (inject_Z (2 ^ 53)).

Definition exactly_summable (xs : list cell) : bool :=
  existsb (λ k, exact_at k xs) (seq 0 1075).
Arguments exactly_summable : simpl never.

(** ** calculate_metrics *)

Record Metrics := mkMetrics {
  last_close : cell;
  change : cell;
  pct_change : cell;
  high : cell;
  low : cell;
  volume : Z
}.

Section Sum.

(** [int(column.sum())] on the other columns: there the sum is rounded in
    binary64, or wraps in 64-bit integers, in a way that depends on the type
    of the column and on the order of numpy's additions, which are
    external to the script. *)
Variable library_sum : list cell → Z.

(** [int(sel.sum())]: the sum of a frame is a series, which [int]
    refuses. *)
Definition int_sum (sel : Selection) : result Z :=
  match sel with
  | Col (Float64 xs) =>
      OK (if exactly_summable xs then truncate (nansum xs) else library_sum xs)
  | _ => Raise TypeError
  end.

Definition calculate_metrics (df : DataFrame) : result Metrics :=
  close ← getitem df "Close";
  last_close ← float_iloc close (-1);
  close ← getitem df "Close";
  prev_close ← float_iloc close 0;
  let change := fsub last_close prev_close in
  ratio ← fdiv change prev_close;
  let pct_change := fmul ratio (Some 100%Q) in
  highs ← getitem df "High";
  high ← float_reduce qmax highs;
  lows ← getitem df "Low";
  low ← float_reduce qmin lows;
  volumes ← getitem df "Volume";
  volume ← int_sum volumes;
  OK (mkMetrics last_close change pct_change high low volume).

End Sum.

(** ** Indicators *)

(** Sum of a window of prices. *)
Definition Qsum (xs : list Q) : Q := foldr Qplus 0%Q xs.

(** The cells of a window when none is NaN. *)
Definition all_defined (w : list cell) : option (list Q) := mapM id w.

(** Modelled from the spec: [ta.trend.sma_indicator] is a function of the
    [ta] library, which is not part of the repository.  The specification
    gives it the standard windowed definition: entry [i] is the arithmetic
    mean of [close[i-window+1 .. i]] once [window] values are available and
    undefined (NaN) before; a window that holds a NaN has no mean. *)
Definition sma_indicator (close : list cell) (window : nat) : list cell :=
  (λ i : nat,
     if (i + 1 <? window)%nat then None
     else w ← all_defined (take window (drop (i + 1 - window) close));
          Some (Qsum w / inject_Z (Z.of_nat window))%Q)
  <$> seq 0 (length close).

(** [sel.squeeze()]: axes of length one are dropped.  A series is left as
    it is and a one-column frame is its column; a one-row frame is its row,
    a series over the column labels; a single cell squeezes to a scalar and
    a wider frame stays a frame. *)
Inductive Squeezed :=
| Scalar
| Column (s : Series)
| Row (cells : list Series)
| Wide.

Definition squeeze (sel : Selection) : Squeezed :=
  match sel with
  | Col s => Column s
  | Frame [s] => if (series_len s =? 1)%nat then Scalar else Column s
  | Frame cols =>
      if forallb (λ s, (series_len s =? 1)%nat) cols then Row cols else Wide
  end.

(** The labels that the columns under [label] keep in [df[label]]: the
    label itself on flat labels, the remaining levels on a [MultiIndex]. *)
Definition sublabels (df : DataFrame) (label : string) : list (list string) :=
  match columns df with
  | Index labels => (λ l, [l]) <$> filter (λ l, l = label) labels
  | MultiIndex tuples => tail <$> filter (λ t, head t = Some label) tuples
  end.

(** The numbers of a series handed to an indicator: a rolling window
    finds no numeric type to aggregate in timestamps. *)
Definition numbers (s : Series) : result (list cell) :=
  match s with
  | Float64 xs => OK xs
  | Datetime64 _ _ => Raise DataError
  end.

(** [df[label] = Float64 xs] on flat labels: an existing column is
    replaced, a new one is appended. *)
Fixpoint replace_col (label : string) (s : Series) (labels : list string)
    (cols : list Series) : list Series :=
  match labels, cols with
  | l :: labels', c :: cols' =>
      (if decide (l = label) then s else c) :: replace_col label s labels' cols'
  | _, _ => cols
  end.

Definition setitem (df : DataFrame) (label : string) (s : Series) : DataFrame :=
  match columns df with
  | Index labels =>
      if decide (label ∈ labels)
      then {| columns := columns df; index := index df;
              data := replace_col label s labels (data df) |}
      else {| columns := Index (labels ++ [label]); index := index df;
              data := data df ++ [s] |}
  | MultiIndex tuples =>
      let depth := default 1%nat (length <$> head tuples) in
      let key := label :: replicate (depth - 1) EmptyString in
      {| columns := MultiIndex (tuples ++ [key]);
         index := index df; data := data df ++ [s] |}
  end.

(** ** The display layer *)

(** A figure is the list of its traces: the base trace and the overlays
    added to it.  The events are the calls made to the data source and to
    the display layer, with the values they show before formatting;
    [Invoked] is a ghost event that marks the entry into a stage of the
    pipeline. *)
Inductive Trace :=
| Candlestick (x open high low close : Selection)
| Line (x y : string)
| Scatter (x y : Selection) (name : string).

(** The two ways the script calls [yf.download]. *)
Inductive Request :=
| Download_window (ticker : string) (start stop : Z) (interval : string)
| Download_period (ticker period interval : string).

Inductive Event :=
| Yf_download (req : Request)
| Invoked (stage : string)
| St_warning (msg : string)
| St_error (e : Exn)
| St_metric (label : string) (value : cell) (delta : option (cell * cell))
| St_plotly_chart (fig : list Trace) (ticker period : string)
| St_subheader (title : string)
| St_dataframe (cols : list Series)
| Sidebar_metric (symbol : string) (value : cell) (delta : cell * cell)
| Sidebar_warning (symbol : string) (e : Exn).

(** Computations that emit display events and may raise. *)
Definition io (A : Type) : Type := list Event * result A.

Global Instance io_ret : MRet io := λ A a, ([], OK a).
Global Instance io_bind : MBind io := λ A B f m,
  match m with
  | (out, OK a) => let '(out', r) := f a in ((out ++ out')%list, r)
  | (out, Raise e) => (out, Raise e)
  end.

Definition emit (ev : Event) : io unit := ([ev], OK ()).
Definition lift {A : Type} (r : result A) : io A := ([], r).

(** [try: body except Exception as e: handler(e)] *)
Definition try_except {A : Type} (body : io A) (handler : Exn → io A) : io A :=
  match body with
  | (out, OK a) => (out, OK a)
  | (out, Raise e) => let '(out', r) := handler e in ((out ++ out')%list, r)
  end.

(** The events [out], then the computation [m]. *)
Definition after {A : Type} (out : list Event) (m : io A) : io A :=
  let '(out', r) := m in ((out ++ out')%list, r).

(** A pipeline stage: the ghost event, then the stage itself. *)
Definition stage {A : Type} (name : string) (r : result A) : io A :=
  ([Invoked name], r).

(** [for x in xs: body(x)] *)
Fixpoint for_each {A : Type} (xs : list A) (body : A → io unit) : io unit :=
  match xs with
  | [] => mret ()
  | x :: xs' => body x;; for_each xs' body
  end.

(** [df[[l1, ..., ln]]]: every label must be present. *)
Fixpoint getitems (df : DataFrame) (labels : list string) : result (list Series) :=
  match labels with
  | [] => OK []
  | l :: labels' =>
      sel ← getitem df l;
      rest ← getitems df labels';
      OK (match sel with Col s => s :: rest | Frame ss => (ss ++ rest)%list end)
  end.

(** [px.line(df, x=.., y=..)]: both names must be columns of the frame. *)
Definition px_line (df : DataFrame) (x y : string) : result (list Trace) :=
  match columns df with
  | Index labels =>
      if decide (x ∈ labels ∧ y ∈ labels) then OK [Line x y] else Raise ValueError
  | MultiIndex _ => Raise ValueError
  end.

(** ** Fetch *)

(** [timedelta(days=n)], in microseconds. *)
Definition timedelta_days (n : Z) : Z := (n * 86400 * 1000000)%Z.

Definition interval_mapping : gmap string string :=
  <["1d" := "5m"]> (<["1wk" := "30m"]> (<["1mo" := "1d"]>
    (<["1y" := "1wk"]> (<["max" := "1wk"]> ∅)))).

(** [d[key]] on a dictionary. *)
Definition dict_get (d : gmap string string) (key : string) : result string :=
  match d !! key with
  | Some v => OK v
  | None => Raise (KeyError key)
  end.

Definition stock_symbols : list string := ["AAPL"; "GOOGL"; "AMZN"; "MSFT"].

Section Dashboard.

(** The data source, the clock, the exponential moving average of the
    [ta] library and the sums that numpy rounds are external to the
    script. *)
Variable yf_download : Request → result DataFrame.
Variable now : Z.
Variable ema_indicator : list cell → nat → list cell.
Variable library_sum : list cell → Z.

(** [yf.download(...)]: the call is recorded, the answer is the source's. *)
Definition download (req : Request) : io DataFrame :=
  ([Yf_download req], yf_download req).

Definition fetch_stock_data (ticker period interval : string)
  : io DataFrame :=
  let end_date := now in
  if decide (period = "1wk") then
    let start_date := (end_date - timedelta_days 7)%Z in
    download (Download_window ticker start_date end_date interval)
  else
    download (Download_period ticker period interval).

(** A scalar has no rolling window and a frame is not a series.  A row is
    indexed by column labels, none of which is a row of the table: storing
    an indicator of it leaves the new column empty, unless a label is
    repeated or has several levels, which the alignment refuses. *)
Definition add_technical_indicators (df : DataFrame) : result DataFrame :=
  close_series ← getitem df "Close";
  match squeeze close_series with
  | Column close_series =>
      close ← numbers close_series;
      let df := setitem df "SMA_20" (Float64 (sma_indicator close 20)) in
      let df := setitem df "EMA_20" (Float64 (ema_indicator close 20)) in
      OK df
  | Scalar => Raise (AttributeError "rolling")
  | Row cells =>
      _ ← mapM numbers cells;
      if decide (NoDup (sublabels df "Close")) then
        if forallb (λ l, (length l =? 1)%nat) (sublabels df "Close") then
          let df := setitem df "SMA_20" (Float64 (replicate (len df) None)) in
          let df := setitem df "EMA_20" (Float64 (replicate (len df) None)) in
          OK df
        else Raise TypeError
      else Raise ValueError
  | Wide => Raise ValueError
  end.

(** *** Main chart *)

(** The chart-type branch of the main chart. *)
Definition chart_branch (chart_type : string) (df : DataFrame)
  : io (list Trace) :=
  if bool_decide (chart_type = "Candlestick") && (5 <=? len df)%nat then
    x ← lift (getitem df "Datetime");
    open ← lift (getitem df "Open");
    high ← lift (getitem df "High");
    low ← lift (getitem df "Low");
    close ← lift (getitem df "Close");
    mret [Candlestick x open high low close]
  else
    (if bool_decide (chart_type = "Candlestick")
     then emit (St_warning "Not enough candles. Showing line chart instead.")
     else mret ());;
    lift (px_line df "Datetime" "Close").

(** The loop that adds the overlays of the chosen indicators. *)
Fixpoint add_overlays (indicators : list string) (df : DataFrame)
    (fig : list Trace) : result (list Trace) :=
  match indicators with
  | [] => OK fig
  | indicator :: rest =>
      fig' ←
        (if bool_decide (indicator = "SMA 20") then
           x ← getitem df "Datetime";
           y ← getitem df "SMA_20";
           OK (fig ++ [Scatter x y "SMA 20"])%list
         else if bool_decide (indicator = "EMA 20") then
           x ← getitem df "Datetime";
           y ← getitem df "EMA_20";
           OK (fig ++ [Scatter x y "EMA 20"])%list
         else OK fig);
      add_overlays rest df fig'
  end.

(** The body of [if st.sidebar.button('Update')]. *)
Definition main_chart (ticker time_period chart_type : string)
    (indicators : list string) : io unit :=
  try_except
    (interval ← lift (dict_get interval_mapping time_period);
     df ← fetch_stock_data ticker time_period interval;
     if empty df || (len df <? 2)%nat then
       emit (St_warning "Not enough data to display chart.")
     else
       df ← stage "process_data" (process_data df);
       df ← stage "normalize_column_names" (OK (normalize_column_names df));
       m ← stage "calculate_metrics" (calculate_metrics library_sum df);
       df ← stage "add_technical_indicators" (add_technical_indicators df);
       emit (St_metric (ticker +:+ " Last Price") (last_close m)
               (Some (change m, pct_change m)));;
       emit (St_metric "High" (high m) None);;
       emit (St_metric "Low" (low m) None);;
       emit (St_metric "Volume" (Some (inject_Z (volume m))) None);;
       fig ← chart_branch chart_type df;
       fig ← lift (add_overlays indicators df fig);
       emit (St_plotly_chart fig ticker time_period);;
       emit (St_subheader "Historical Data");;
       history ← lift (getitems df
                   ["Datetime"; "Open"; "High"; "Low"; "Close"; "Volume"]);
       emit (St_dataframe history);;
       emit (St_subheader "Technical Indicators");;
       technical ← lift (getitems df ["Datetime"; "SMA_20"; "EMA_20"]);
       emit (St_dataframe technical))
    (λ e, emit (St_error e)).

(** *** Watchlist *)

(** The flattening the loop does itself before [process_data]. *)
Definition flatten_columns (df : DataFrame) : DataFrame :=
  {| columns := Index (flat_labels (columns df));
     index := index df; data := data df |}.

(** The body of the [try] of the loop: the metric of one symbol. *)
Definition watch_metric (symbol : string) (real_time_data : DataFrame)
  : io unit :=
  close ← lift (getitem real_time_data "Close");
  last_price ← lift (float_iloc close (-1));
  opens ← lift (getitem real_time_data "Open");
  open_price ← lift (float_iloc opens 0);
  let change := fsub last_price open_price in
  ratio ← lift (fdiv change open_price);
  let pct_change := fmul ratio (Some 100%Q) in
  emit (Sidebar_metric symbol last_price (change, pct_change)).

(** One iteration of the watchlist loop. *)
Definition watch_symbol (symbol : string) : io unit :=
  real_time_data ← fetch_stock_data symbol "1d" "1m";
  if negb (empty real_time_data) then
    let real_time_data := flatten_columns real_time_data in
    real_time_data ← stage "process_data" (process_data real_time_data);
    real_time_data ← stage "normalize_column_names"
                       (OK (normalize_column_names real_time_data));
    try_except (watch_metric symbol real_time_data)
               (λ e, emit (Sidebar_warning symbol e))
  else mret ().

Definition watchlist (symbols : list string) : io unit :=
  for_each symbols watch_symbol.

End Dashboard.

(** ** Notions of the specification *)

(** The five canonical price and volume names. *)
Definition ohlcv : list string := ["Open"; "High"; "Low"; "Close"; "Volume"].

(** How often a label occurs among the column labels. *)
Definition count_label (n : string) (labels : list string) : nat :=
  length (filter (λ l, l = n) labels).

(** A raw table whose columns are two-level (field, symbol) pairs for a
    single symbol. *)
Definition two_level (sym : string) (fields : list string) (df : DataFrame)
  : Prop :=
  columns df = MultiIndex ((λ f, [f; sym]) <$> fields).

(** Flat labels in which each canonical name and [Datetime] occur once. *)
Definition ohlcv_once (t : DataFrame) : Prop :=
  ∃ labels, columns t = Index labels
    ∧ (∀ n, n ∈ ohlcv → count_label n labels = 1%nat)
    ∧ count_label "Datetime" labels = 1%nat.

(** A symbol in which the substring matching finds no name that would win
    over the field's own. *)
Definition clean_symbol (sym : string) : Prop :=
  ∀ n, n ∈ ["Open"; "High"; "Low"; "Close"] → PyStr.contains n sym = false.

(** The column stored under a label, on flat labels. *)
Fixpoint lookup_col (n : string) (labels : list string) (cols : list Series)
  : option Series :=
  match labels, cols with
  | l :: labels', s :: cols' =>
      if decide (l = n) then Some s else lookup_col n labels' cols'
  | _, _ => None
  end.

Definition column (t : DataFrame) (n : string) : option Series :=
  match columns t with
  | Index labels => lookup_col n labels (data t)
  | MultiIndex _ => None
  end.

(** A numeric column without NaN. *)
Definition prices (qs : list Q) : Series := Float64 (Some <$> qs).

(** The canonical table of the specification: flat labels without
    repetition, one series per label; the columns are [Datetime], the five
    price and volume columns and, optionally, the two indicator columns;
    [Datetime] holds timestamps in the display timezone and the five
    others numbers, one per row. *)
Definition canonical (t : DataFrame) : Prop :=
  ∃ labels,
    columns t = Index labels
    ∧ length (data t) = length labels
    ∧ NoDup labels
    ∧ Forall (λ n, n ∈ labels) ("Datetime" :: ohlcv)
    ∧ Forall (λ l, l ∈ "Datetime" :: ohlcv ++ ["SMA_20"; "EMA_20"]) labels
    ∧ (∃ ts, column t "Datetime" = Some (Datetime64 (Some "US/Eastern") ts)
             ∧ length ts = len t)
    ∧ Forall (λ n, ∃ qs, column t n = Some (prices qs) ∧ length qs = len t)
        ohlcv.

(** Flat labels, one series per label. *)
Definition aligned (t : DataFrame) (labels : list string) : Prop :=
  columns t = Index labels ∧ length (data t) = length labels.

(** The arithmetic mean of the twenty closes that end at row [i]. *)
Definition mean_20 (closes : list Q) (i : nat) : Q :=
  (Qsum ((λ k : nat, nth (i - 19 + k) closes 0%Q) <$> seq 0 20) / 20)%Q.

(** The interval table of the specification. *)
Definition interval_table : list (string * string) :=
  [("1d", "5m"); ("1wk", "30m"); ("1mo", "1d"); ("1y", "1wk"); ("max", "1wk")].

(** The request the specification assigns to a fetch at time [now]: a
    trailing window of seven days (in microseconds) for the period [1wk],
    the period token itself otherwise. *)
Definition request_for (now : Z) (ticker period interval : string) : Request :=
  if decide (period = "1wk")
  then Download_window ticker (now - 604800000000)%Z now interval
  else Download_period ticker period interval.

(** A computation that makes no call to the data source. *)
Definition offline {A : Type} (m : io A) : Prop :=
  ∀ req, Yf_download req ∉ m.1.

(** A computation that emits no event of the kind [P]. *)
Definition never {A : Type} (P : Event → Prop) (m : io A) : Prop :=
  ∀ ev, ev ∈ m.1 → ¬ P ev.

(** The events that report an error of the main chart. *)
Definition is_error (ev : Event) : Prop := ∃ e, ev = St_error e.

(** The overlay that the indicator loop adds for a selected name. *)
Definition overlay_of (x sma ema : Selection) (indicator : string)
  : option Trace :=
  if decide (indicator = "SMA 20") then Some (Scatter x sma "SMA 20")
  else if decide (indicator = "EMA 20") then Some (Scatter x ema "EMA 20")
  else None.

(** The requests made to the data source, in the order of a trace. *)
Definition requests_of (trace : list Event) : list Request :=
  omap (λ ev, match ev with Yf_download req => Some req | _ => None end) trace.

(** The difference of two numbers in binary64, and the percentage that a
    change is of a base: the quotient, then its product by 100, each
    rounded to binary64. *)
Definition difference (x y : Q) : cell :=
  of_float (to_float x - to_float y).

Definition percent_of (change : cell) (base : Q) : cell :=
  c ← change;
  r ← of_float (to_float c / to_float base);
  of_float (to_float r * to_float 100).

(** A rational that is the value of a binary64 float. *)
Definition binary64_value (q : Q) : Prop :=
  ∃ q', of_float (to_float q) = Some q' ∧ (q' == q)%Q.

(** Numbers that are whole multiples of some [2^-k] and whose magnitudes
    total at most [2^53] such multiples: binary64 adds them without
    rounding. *)
Definition summable (qs : list Q) : Prop :=
  ∃ k : nat, (k ≤ 1074)%nat
    ∧ Forall (λ q, ∃ z, (q * scale k == inject_Z z)%Q) qs
    ∧ (Qsum (Qabs <$> qs) * scale k <= inject_Z (2 ^ 53))%Q.

(** [v] is [q] truncated towards zero. *)
Definition truncation_of (q : Q) (v : Z) : Prop :=
  (0 <= q → inject_Z v <= q ∧ q < inject_Z (v + 1))%Q
  ∧ (q <= 0 → inject_Z (v - 1) < q ∧ q <= inject_Z v)%Q.

(** ** Scenarios *)

(** What the data source returns for a daily request when it also reports
    the adjusted close: six fields for the one symbol. *)
Definition raw_adj_close : DataFrame :=
  {| columns := MultiIndex [["Adj Close"; "XYZ"]; ["Close"; "XYZ"];
                            ["High"; "XYZ"]; ["Low"; "XYZ"];
                            ["Open"; "XYZ"]; ["Volume"; "XYZ"]];
     index := DatetimeIndex (Some "Date") None [0; 86400]%Z;
     data := [prices [99; 100]%Q; prices [100; 101]%Q; prices [102; 103]%Q;
              prices [98; 99]%Q; prices [99; 100]%Q; prices [5000; 6000]%Q] |}.

(** The five fields, for a symbol spelled like one of the canonical names. *)
Definition raw_symbol_low : DataFrame :=
  {| columns := MultiIndex [["Close"; "Low"]; ["High"; "Low"]; ["Low"; "Low"];
                            ["Open"; "Low"]; ["Volume"; "Low"]];
     index := DatetimeIndex (Some "Date") None [0; 86400]%Z;
     data := [prices [100; 101]%Q; prices [102; 103]%Q; prices [98; 99]%Q;
              prices [99; 100]%Q; prices [5000; 6000]%Q] |}.

(** The concrete scenario of the specification: ten rows, a timestamp index
    without timezone, five (field, symbol) columns for the symbol XYZ and
    the closes 100, 101, ..., 109.  The index name, the instants and the
    other four columns are left open. *)
Definition scenario (name : option string) (ts : list Z)
    (opens highs lows volumes : list cell) : DataFrame :=
  {| columns := MultiIndex [["Close"; "XYZ"]; ["Open"; "XYZ"]; ["High"; "XYZ"];
                            ["Low"; "XYZ"]; ["Volume"; "XYZ"]];
     index := DatetimeIndex name None ts;
     data := [prices [100; 101; 102; 103; 104; 105; 106; 107; 108; 109]%Q;
              Float64 opens; Float64 highs; Float64 lows; Float64 volumes] |}.

(** The labels of the scenario once flattened. *)
Definition scenario_flat : list string :=
  ["Close XYZ"; "Open XYZ"; "High XYZ"; "Low XYZ"; "Volume XYZ"].

(** Ten instants five minutes apart, in seconds. *)
Definition ten_instants : list Z :=
  (λ i, (1700000000 + 300 * Z.of_nat i)%Z) <$> seq 0 10.

Definition raw_xyz : DataFrame :=
  scenario (Some "Datetime") ten_instants
    (Some <$> [100; 101; 102; 103; 104; 105; 106; 107; 108; 109]%Q)
    (Some <$> [101; 102; 103; 104; 105; 106; 107; 108; 109; 110]%Q)
    (Some <$> [99; 100; 101; 102; 103; 104; 105; 106; 107; 108]%Q)
    (Some <$> [10; 20; 30; 40; 50; 60; 70; 80; 90; 100]%Q).

(** A canonical table of [n] rows with the given columns. *)
Definition table (ts : list Z) (opens highs lows closes volumes : list Q)
  : DataFrame :=
  {| columns := Index ["Datetime"; "Open"; "High"; "Low"; "Close"; "Volume"];
     index := RangeIndex None (length ts);
     data := [Datetime64 (Some "US/Eastern") ts; prices opens; prices highs;
              prices lows; prices closes; prices volumes] |}.

(** Two rows whose first close is zero. *)
Definition zero_close : DataFrame :=
  table [0; 300]%Z [0; 4]%Q [1; 6]%Q [0; 3]%Q [0; 5]%Q [10; 20]%Q.

(** Three rows and seven rows of ordinary prices. *)
Definition three_rows : DataFrame :=
  table [0; 300; 600]%Z [10; 11; 12]%Q [12; 13; 14]%Q [9; 10; 11]%Q
    [11; 12; 13]%Q [100; 200; 300]%Q.

Definition seven_rows : DataFrame :=
  table [0; 300; 600; 900; 1200; 1500; 1800]%Z
    [10; 11; 12; 13; 14; 15; 16]%Q [12; 13; 14; 15; 16; 17; 18]%Q
    [9; 10; 11; 12; 13; 14; 15]%Q [11; 12; 13; 14; 15; 16; 17]%Q
    [100; 200; 300; 400; 500; 600; 700]%Q.

(** A fetch that found a single row. *)
Definition one_row : DataFrame :=
  {| columns := MultiIndex [["Close"; "ADBE"]; ["High"; "ADBE"]; ["Low"; "ADBE"];
                            ["Open"; "ADBE"]; ["Volume"; "ADBE"]];
     index := DatetimeIndex (Some "Datetime") (Some "UTC") [1700000000]%Z;
     data := [prices [500]%Q; prices [501]%Q; prices [499]%Q; prices [500]%Q;
              prices [1000]%Q] |}.

(** A fetch that found nothing. *)
Definition no_rows : DataFrame :=
  {| columns := Index []; index := DatetimeIndex None None []; data := [] |}.

(** A data source that answers every request with the same table. *)
Definition constant_source (df : DataFrame) : Request → result DataFrame :=
  λ _, OK df.

(** A stand-in for the exponential moving average, where its values do not
    matter. *)
Definition blank_ema : list cell → nat → list cell :=
  λ close _, (λ _, None) <$> close.

(** A stand-in for the sums that numpy rounds, where none is taken. *)
Definition blank_sum : list cell → Z := λ _, 0%Z.

(** Thirty rows whose closes are 1, 2, ..., 30. *)
Definition ramp (n : nat) : list Q := (λ i, inject_Z (Z.of_nat i)) <$> seq 1 n.

Definition thirty_rows : DataFrame :=
  table ((λ i, (300 * Z.of_nat i)%Z) <$> seq 0 30)
    (ramp 30) (ramp 30) (ramp 30) (ramp 30) (ramp 30).

(** An intraday quote as the source reports it for one symbol. *)
Definition quote (symbol : string) : DataFrame :=
  {| columns := MultiIndex [["Close"; symbol]; ["High"; symbol]; ["Low"; symbol];
                            ["Open"; symbol]; ["Volume"; symbol]];
     index := DatetimeIndex (Some "Datetime") (Some "UTC")
                [1700000000; 1700000060]%Z;
     data := [prices [101; 102]%Q; prices [103; 104]%Q; prices [99; 100]%Q;
              prices [100; 101]%Q; prices [1000; 2000]%Q] |}.

(** The same quote after a detour that lost the timestamp index. *)
Definition quote_without_timestamps (symbol : string) : DataFrame :=
  {| columns := columns (quote symbol); index := RangeIndex None 2;
     data := data (quote symbol) |}.

(** A quote whose opening price is zero. *)
Definition quote_zero_open (symbol : string) : DataFrame :=
  {| columns := columns (quote symbol); index := index (quote symbol);
     data := [prices [101; 102]%Q; prices [103; 104]%Q; prices [99; 100]%Q;
              prices [0; 101]%Q; prices [1000; 2000]%Q] |}.

Definition request_ticker (req : Request) : string :=
  match req with
  | Download_window ticker _ _ _ => ticker
  | Download_period ticker _ _ => ticker
  end.

(** A source that answers with the quote of the requested symbol, except
    for one symbol, for which [answer] is given instead. *)
Definition source_except (symbol : string) (answer : result DataFrame)
  : Request → result DataFrame :=
  λ req, if decide (request_ticker req = symbol) then answer
         else OK (quote (request_ticker req)).

(** Three rows as the source reports them for the symbol XYZ. *)
Definition raw_three : DataFrame :=
  {| columns := MultiIndex [["Close"; "XYZ"]; ["High"; "XYZ"]; ["Low"; "XYZ"];
                            ["Open"; "XYZ"]; ["Volume"; "XYZ"]];
     index := DatetimeIndex (Some "Datetime") (Some "UTC") [0; 300; 600]%Z;
     data := [prices [11; 12; 13]%Q; prices [12; 13; 14]%Q; prices [9; 10; 11]%Q;
              prices [10; 11; 12]%Q; prices [100; 200; 300]%Q] |}.

(** What the Normalizer makes of [raw_three]. *)
Definition normal_three : DataFrame :=
  {| columns := Index ["Datetime"; "Close"; "High"; "Low"; "Open"; "Volume"];
     index := RangeIndex None 3;
     data := Datetime64 (Some "US/Eastern") [0; 300; 600]%Z :: data raw_three |}.

(** A source that answers every request with the quote of its symbol. *)
Definition quote_source : Request → result DataFrame :=
  λ req, OK (quote (request_ticker req)).

(** * Properties *)

(** ** Results *)

Lemma bind_OK {A B} (f : A → result B) a : (OK a ≫= f) = f a.
Proof. reflexivity. Qed.

Lemma bind_Raise {A B} (f : A → result B) e : (Raise e ≫= f) = Raise e.
Proof. reflexivity. Qed.

(** ** Strings *)

Lemma rstrip_cons c s :
  PyStr.is_space c = false →
  PyStr.rstrip (String c s) = String c (PyStr.rstrip s).
Proof.
  intros Hc. simpl. rewrite Hc. by destruct (PyStr.rstrip s).
Qed.

Lemma append_cons c s w : String c s +:+ w = String c (s +:+ w).
Proof. reflexivity. Qed.

Lemma append_nil w : EmptyString +:+ w = w.
Proof. reflexivity. Qed.

Lemma rstrip_app s : ∃ w, s = PyStr.rstrip s +:+ w.
Proof.
  induction s as [|c s [w Hw]]; [by exists EmptyString|].
  simpl. revert Hw. destruct (PyStr.rstrip s) as [|c' r]; intros Hw.
  - destruct (PyStr.is_space c); [by exists (String c s)|].
    exists w. rewrite append_cons. by rewrite <- Hw.
  - exists w. rewrite append_cons. by rewrite <- Hw.
Qed.

Lemma prefix_app sub s w :
  String.prefix sub s = true → String.prefix sub (s +:+ w) = true.
Proof.
  revert sub. induction s as [|c s IH]; intros [|a sub];
    rewrite ?append_cons, ?append_nil; simpl; try done.
  - by destruct w.
  - destruct (ascii_dec a c); [apply IH|done].
Qed.

Lemma contains_app sub s w :
  PyStr.contains sub s = true → PyStr.contains sub (s +:+ w) = true.
Proof.
  induction s as [|c s IH]; cbn [PyStr.contains].
  - rewrite orb_false_r. destruct sub; [|done]. intros _.
    rewrite append_nil. by destruct w.
  - intros [H|H]%orb_true_iff; rewrite append_cons; cbn [PyStr.contains];
      apply orb_true_iff.
    + left. by apply (prefix_app sub (String c s) w).
    + right. by apply IH.
Qed.

Lemma contains_rstrip sub s :
  PyStr.contains sub s = false → PyStr.contains sub (PyStr.rstrip s) = false.
Proof.
  intros H. destruct (PyStr.contains sub (PyStr.rstrip s)) eqn:E; [|done].
  destruct (rstrip_app s) as [w Hw].
  apply (contains_app _ _ w) in E. rewrite <- Hw in E. congruence.
Qed.

(** ** Normalizer *)

Lemma prefix_nil s : String.prefix EmptyString s = true.
Proof. by destruct s. Qed.

Lemma canonical_name_field f tl :
  f ∈ ohlcv →
  (∀ n, n ∈ ["Open"; "High"; "Low"; "Close"] → PyStr.contains n tl = false) →
  canonical_name (f +:+ tl) = Some f.
Proof.
  intros Hf Htl.
  assert (PyStr.contains "Open" tl = false) as HO by (apply Htl; repeat constructor).
  assert (PyStr.contains "High" tl = false) as HH by (apply Htl; repeat constructor).
  assert (PyStr.contains "Low" tl = false) as HL by (apply Htl; repeat constructor).
  assert (PyStr.contains "Close" tl = false) as HC by (apply Htl; repeat constructor).
  unfold ohlcv in Hf.
  repeat (apply elem_of_cons in Hf as [->|Hf]); [..|by apply elem_of_nil in Hf];
    rewrite !append_cons, append_nil; unfold canonical_name;
    cbn [PyStr.contains]; simpl; rewrite ?HO, ?HH, ?HL, ?HC, ?prefix_nil; done.
Qed.

Lemma lstrip_cons c s :
  PyStr.is_space c = false → PyStr.lstrip (String c s) = String c s.
Proof. intros Hc. simpl. by rewrite Hc. Qed.

Lemma flatten_label_field f sym :
  f ∈ ohlcv →
  flatten_label [f; sym] = f +:+ PyStr.rstrip (String " " sym).
Proof.
  intros Hf. unfold ohlcv in Hf.
  repeat (apply elem_of_cons in Hf as [->|Hf]); [..|by apply elem_of_nil in Hf];
    unfold flatten_label, PyStr.strip; cbn [PyStr.join];
    rewrite !append_cons, !append_nil, lstrip_cons by reflexivity;
    rewrite !rstrip_cons by reflexivity; reflexivity.
Qed.

Lemma canonical_name_flat f sym :
  f ∈ ohlcv → clean_symbol sym →
  canonical_name (flatten_label [f; sym]) = Some f.
Proof.
  intros Hf Hsym. rewrite flatten_label_field by done.
  apply canonical_name_field; [done|].
  intros n Hn. apply contains_rstrip. cbn [PyStr.contains].
  rewrite (Hsym n Hn), orb_false_r.
  repeat (apply elem_of_cons in Hn as [->|Hn]); [..|by apply elem_of_nil in Hn];
    reflexivity.
Qed.

(** The dictionary built by the loop holds, for each label of the frame,
    the canonical name the [if]/[elif] chain finds in it. *)
Lemma build_col_map_lookup labels l :
  l ∈ labels → build_col_map labels !! l = canonical_name l.
Proof.
  unfold build_col_map.
  cut (∀ m : gmap string string,
         foldl (λ col_map col,
                  match canonical_name col with
                  | Some c => <[col := c]> col_map
                  | None => col_map
                  end) m labels !! l
         = if decide (l ∈ labels)
           then match canonical_name l with
                | Some c => Some c
                | None => m !! l
                end
           else m !! l).
  { intros H Hl. rewrite H, decide_True by done.
    by destruct (canonical_name l). }
  induction labels as [|a labels IH]; intros m; [done|].
  cbn [foldl]. rewrite IH.
  destruct (decide (a = l)) as [->|Hne].
  - rewrite (decide_True (P := l ∈ l :: labels)) by constructor.
    destruct (canonical_name l) eqn:El; [|by case_decide].
    case_decide; [done|]. by rewrite lookup_insert_eq.
  - assert (match canonical_name a with
            | Some c => <[a:=c]> m
            | None => m
            end !! l = m !! l) as ->.
    { destruct (canonical_name a); [by rewrite lookup_insert_ne|done]. }
    assert (l ∈ a :: labels ↔ l ∈ labels) as Hiff
      by (rewrite elem_of_cons; split; [intros [?|?]; [congruence|done]|by right]).
    repeat case_decide; tauto || done.
Qed.

Lemma rename_build_col_map labels :
  rename (build_col_map labels) labels
  = (λ l, default l (canonical_name l)) <$> labels.
Proof.
  unfold rename. apply Forall_fmap_ext_1, Forall_forall.
  intros l Hl. by rewrite build_col_map_lookup.
Qed.

Lemma rename1_fresh old new labels :
  old ∉ labels → rename1 old new labels = labels.
Proof.
  intros H. unfold rename1. rewrite <- (list_fmap_id labels) at 2.
  apply Forall_fmap_ext_1, Forall_forall. intros l Hl.
  case_decide; [by subst|done].
Qed.

(** When the column that [reset_index] adds is the only one that can be
    the timestamp, it ends up named [Datetime]. *)
Lemma name_datetime_fresh first labels :
  first ∉ labels → "Date" ∉ labels → "Datetime" ∉ labels →
  name_datetime (first :: labels) = "Datetime" :: labels.
Proof.
  intros Hf Hd Hdt. unfold name_datetime.
  destruct (decide ("Date" ∈ first :: labels)) as [[->|?]%elem_of_cons|Hn].
  - unfold rename1. cbn [fmap list_fmap]. rewrite decide_True by done.
    f_equal. by apply rename1_fresh.
  - done.
  - destruct (decide ("Datetime" ∈ first :: labels)) as [[->|?]%elem_of_cons|Hn'];
      [done|done|].
    unfold rename1. cbn [fmap list_fmap]. rewrite decide_True by done.
    f_equal. by apply rename1_fresh.
Qed.

Lemma count_label_cons_ne n l labels :
  l ≠ n → count_label n (l :: labels) = count_label n labels.
Proof. intros H. unfold count_label. by rewrite filter_cons_False. Qed.

Lemma count_label_cons_eq n labels :
  count_label n (n :: labels) = S (count_label n labels).
Proof. unfold count_label. by rewrite filter_cons_True. Qed.

Lemma count_label_absent n labels :
  n ∉ labels → count_label n labels = 0%nat.
Proof.
  intros H. unfold count_label.
  induction labels as [|l labels IH]; [done|].
  apply not_elem_of_cons in H as [Hne Hn].
  rewrite filter_cons_False by congruence. by apply IH.
Qed.

(** Flattening the (field, symbol) pairs and canonicalising the result
    gives back the fields. *)
Lemma canonical_fields sym fields :
  fields ⊆ ohlcv → clean_symbol sym →
  (λ l, default l (canonical_name l)) <$>
    (flatten_label <$> ((λ f, [f; sym]) <$> fields)) = fields.
Proof.
  intros Hsub Hsym. rewrite <- !list_fmap_compose.
  rewrite <- (list_fmap_id fields) at 2.
  apply Forall_fmap_ext_1, Forall_forall. intros f Hf.
  change (default (flatten_label [f; sym])
            (canonical_name (flatten_label [f; sym])) = f).
  rewrite canonical_name_flat; [done|by apply Hsub|done].
Qed.

Lemma flat_field_named sym fields l :
  fields ⊆ ohlcv → clean_symbol sym →
  l ∈ flatten_label <$> ((λ f, [f; sym]) <$> fields) →
  is_Some (canonical_name l).
Proof.
  intros Hsub Hsym (t & -> & (f & -> & Hf)%list_elem_of_fmap)%list_elem_of_fmap.
  rewrite canonical_name_flat; [by eexists|by apply Hsub|done].
Qed.

(** C1 (as amended).  For every raw table whose two-level columns pair the
    five fields Open, High, Low, Close, Volume, each once and in any order,
    with a single symbol in which none of the names Open, High, Low, Close
    occurs, and whose timestamp index is not named like one of the
    flattened labels, the Normalizer succeeds and yields flat labels in
    which each of the five canonical names occurs exactly once, alongside
    one Datetime column. *)
Theorem normalizer_ohlcv_once raw sym fields name tz ts :
  two_level sym fields raw →
  fields ≡ₚ ohlcv →
  clean_symbol sym →
  index raw = DatetimeIndex name tz ts →
  (∀ n, name = Some n → n ∉ flat_labels (columns raw)) →
  ∃ t, normalizer raw = OK t ∧ ohlcv_once t.
Proof.
  intros Hcols Hperm Hsym Hix Hname.
  assert (fields ⊆ ohlcv) as Hsub by (intros f Hf; by rewrite <- Hperm).
  unfold two_level in Hcols.
  set (flat := flatten_label <$> ((λ f, [f; sym]) <$> fields)).
  assert (∀ x, canonical_name x = None → x ∉ flat) as Hfresh.
  { intros x Hx Hin. destruct (flat_field_named sym fields x) as [c Hc]; try done.
    congruence. }
  assert (reset_name name flat ∉ flat) as Hreset.
  { destruct name as [n|]; cbn.
    - specialize (Hname n eq_refl). by rewrite Hcols in Hname.
    - rewrite decide_False by (by apply Hfresh). by apply Hfresh. }
  unfold normalizer, process_data. rewrite Hcols, Hix. cbn [flat_labels].
  fold flat. unfold reset_index. cbn [index_name].
  rewrite decide_False by done. cbn.
  rewrite name_datetime_fresh by (done || by apply Hfresh).
  eexists; split; [reflexivity|].
  unfold normalize_column_names; cbn [columns].
  rewrite rename_build_col_map. cbn [fmap list_fmap].
  change (list_fmap _ _ ?f flat) with (f <$> flat).
  unfold flat. rewrite canonical_fields by done. cbn.
  eexists; split; [reflexivity|]. split.
  - intros n Hn. rewrite count_label_cons_ne.
    + unfold count_label. rewrite Hperm.
      unfold ohlcv in Hn.
      repeat (apply elem_of_cons in Hn as [->|Hn]); [..|by apply elem_of_nil in Hn];
        reflexivity.
    + intros <-. unfold ohlcv in Hn.
      repeat (apply elem_of_cons in Hn as [?|Hn]); [..|by apply elem_of_nil in Hn];
        discriminate.
  - rewrite count_label_cons_eq, count_label_absent; [done|].
    rewrite Hperm. unfold ohlcv. intros Hn.
    repeat (apply elem_of_cons in Hn as [?|Hn]); [..|by apply elem_of_nil in Hn];
      discriminate.
Qed.

Lemma xyz_clean : clean_symbol "XYZ".
Proof.
  intros n Hn.
  repeat (apply elem_of_cons in Hn as [->|Hn]); [..|by apply elem_of_nil in Hn];
    reflexivity.
Qed.

Lemma scenario_fields_perm :
  ["Close"; "Open"; "High"; "Low"; "Volume"] ≡ₚ ohlcv.
Proof.
  unfold ohlcv.
  apply (Permutation_cons_app ["Open"; "High"; "Low"] ["Volume"] "Close").
  reflexivity.
Qed.

Lemma normalizer_ohlcv_once_witness :
  ∃ t, normalizer raw_xyz = OK t ∧ ohlcv_once t.
Proof.
  apply (normalizer_ohlcv_once raw_xyz "XYZ"
           ["Close"; "Open"; "High"; "Low"; "Volume"]
           (Some "Datetime") None ten_instants).
  - reflexivity.
  - exact scenario_fields_perm.
  - exact xyz_clean.
  - reflexivity.
  - intros n [= <-]. vm_compute. intros H.
    repeat (apply elem_of_cons in H as [?|H]); [..|by apply elem_of_nil in H];
      discriminate.
Defined.

(** C1 fails as stated.  When the source also reports the adjusted close,
    the substring matching maps both [Adj Close XYZ] and [Close XYZ] to
    [Close], which then labels two columns; and for a symbol spelled [Low]
    the label [Close Low] is renamed [Low], so that no column is named
    [Close]. *)
Lemma normalizer_not_once :
  (two_level "XYZ" ["Adj Close"; "Close"; "High"; "Low"; "Open"; "Volume"]
     raw_adj_close
   ∧ ∃ t, normalizer raw_adj_close = OK t
          ∧ columns t = Index ["Datetime"; "Close"; "Close"; "High"; "Low";
                               "Open"; "Volume"]
          ∧ ¬ ohlcv_once t)
  ∧ (two_level "Low" ["Close"; "High"; "Low"; "Open"; "Volume"] raw_symbol_low
     ∧ ∃ t, normalizer raw_symbol_low = OK t
            ∧ columns t = Index ["Datetime"; "Low"; "High"; "Low"; "Open"; "Low"]
            ∧ ¬ ohlcv_once t).
Proof.
  split; (split; [reflexivity|]); eexists; (split; [vm_compute; reflexivity|]);
    (split; [reflexivity|]); intros (labels & [= <-] & Hcount & _);
    specialize (Hcount "Close"); vm_compute in Hcount;
    (assert ("Close" ∈ ohlcv) as Hin by (unfold ohlcv; repeat constructor));
    specialize (Hcount Hin); discriminate.
Qed.

(** ** Column selection *)

Lemma select_absent (n : string) labels cols :
  n ∉ labels → select (λ l, bool_decide (l = n)) labels cols = [].
Proof.
  revert cols. induction labels as [|l labels IH]; intros [|s cols] Hn; try done.
  apply not_elem_of_cons in Hn as [Hne Hn]. cbn [select].
  rewrite bool_decide_eq_false_2 by congruence. by apply IH.
Qed.

Lemma select_unique (n : string) labels cols s :
  NoDup labels → lookup_col n labels cols = Some s →
  select (λ l, bool_decide (l = n)) labels cols = [s].
Proof.
  revert cols. induction labels as [|l labels IH]; intros [|c cols] Hnd H; try done.
  apply NoDup_cons in Hnd as [Hl Hnd]. cbn [lookup_col select] in *.
  destruct (decide (l = n)) as [->|Hne].
  - injection H as ->. rewrite bool_decide_eq_true_2 by done.
    by rewrite select_absent.
  - rewrite bool_decide_eq_false_2 by done. by apply IH.
Qed.

(** On a frame with distinct flat labels, [df[n]] is the column under [n]. *)
Lemma getitem_column t labels n s :
  columns t = Index labels → NoDup labels →
  column t n = Some s → getitem t n = OK (Col s).
Proof.
  intros Hc Hnd H. unfold getitem, column in *. rewrite Hc in *.
  by rewrite (select_unique n labels (data t) s).
Qed.

Lemma canonical_getitem t n s :
  canonical t → column t n = Some s → getitem t n = OK (Col s).
Proof.
  intros (labels & Hc & _ & Hnd & _) H. by eapply getitem_column.
Qed.

(** ** Metrics *)

Lemma py_index_first {A} (xs : list A) x :
  xs !! 0%nat = Some x → py_index xs 0 = Some x.
Proof.
  intros H. unfold py_index.
  assert (0 < length xs)%nat by (by eapply lookup_lt_Some).
  rewrite decide_True by lia. done.
Qed.

Lemma py_index_last {A} (xs : list A) x :
  xs !! (length xs - 1)%nat = Some x → py_index xs (-1) = Some x.
Proof.
  intros H. unfold py_index.
  assert (length xs - 1 < length xs)%nat by (by eapply lookup_lt_Some).
  rewrite decide_False, decide_True by lia.
  by replace (Z.to_nat (Z.of_nat (length xs) + -1)) with (length xs - 1)%nat by lia.
Qed.

Lemma float_iloc_first qs q :
  qs !! 0%nat = Some q → float_iloc (Col (prices qs)) 0 = OK (Some q).
Proof.
  intros H. unfold float_iloc, prices.
  by rewrite (py_index_first _ (Some q)) by (by rewrite list_lookup_fmap, H).
Qed.

Lemma float_iloc_last qs q :
  qs !! (length qs - 1)%nat = Some q →
  float_iloc (Col (prices qs)) (-1) = OK (Some q).
Proof.
  intros H. unfold float_iloc, prices.
  by rewrite (py_index_last _ (Some q))
    by (by rewrite list_lookup_fmap, length_fmap, H).
Qed.

Section Extremum.

(** A choice between two numbers that is a bound of both for an order
    [R]: the maximum for [<=], the minimum for [>=]. *)
Variable f : Q → Q → Q.
Variable R : Q → Q → Prop.
Hypothesis f_choice : ∀ m x, f m x = m ∨ f m x = x.
Hypothesis f_bound : ∀ m x, R m (f m x) ∧ R x (f m x).
Hypothesis R_refl : ∀ x, R x x.
Hypothesis R_trans : ∀ x y z, R x y → R y z → R x z.

Lemma reduce_from m qs :
  ∃ h, foldl (λ acc c,
                match c, acc with
                | Some x, Some m => Some (f m x)
                | Some x, None => Some x
                | None, _ => acc
                end) (Some m) (Some <$> qs) = Some h
       ∧ h ∈ m :: qs ∧ R m h ∧ ∀ x, x ∈ qs → R x h.
Proof using All.
  revert m. induction qs as [|q qs IH]; intros m.
  - exists m. repeat split; [constructor|done|]. by intros x ?%elem_of_nil.
  - cbn [fmap list_fmap foldl]. destruct (IH (f m q)) as (h & -> & Hin & Hm & Hall).
    destruct (f_bound m q) as [Hbm Hbq].
    exists h. repeat split.
    + apply elem_of_cons in Hin as [->|Hin].
      * destruct (f_choice m q) as [->| ->]; repeat constructor.
      * by do 2 right.
    + by eapply R_trans.
    + intros x [->|Hx]%elem_of_cons; [by eapply R_trans|by apply Hall].
Qed.

Lemma nanreduce_extremum qs :
  qs ≠ [] →
  ∃ h, nanreduce f (Some <$> qs) = Some h ∧ h ∈ qs ∧ ∀ x, x ∈ qs → R x h.
Proof using All.
  destruct qs as [|q qs]; [done|intros _].
  unfold nanreduce. cbn [fmap list_fmap foldl].
  destruct (reduce_from q qs) as (h & -> & Hin & Hq & Hall).
  exists h. repeat split; [done|].
  intros x [->|Hx]%elem_of_cons; [done|by apply Hall].
Qed.

End Extremum.

Lemma Qle_bool_false x y : Qle_bool x y = false → (y < x)%Q.
Proof.
  intros H. apply Qnot_le_lt. intros Hle%Qle_bool_iff. congruence.
Qed.

Lemma nanreduce_max qs :
  qs ≠ [] →
  ∃ h, nanreduce qmax (Some <$> qs) = Some h
       ∧ h ∈ qs ∧ ∀ x, x ∈ qs → (x <= h)%Q.
Proof.
  apply (nanreduce_extremum qmax Qle).
  - intros m x. unfold qmax. destruct (Qle_bool m x); auto.
  - intros m x. unfold qmax. destruct (Qle_bool m x) eqn:E.
    + apply Qle_bool_iff in E. split; [done|apply Qle_refl].
    + apply Qle_bool_false in E. split; [apply Qle_refl|by apply Qlt_le_weak].
  - apply Qle_refl.
  - apply Qle_trans.
Qed.

Lemma nanreduce_min qs :
  qs ≠ [] →
  ∃ h, nanreduce qmin (Some <$> qs) = Some h
       ∧ h ∈ qs ∧ ∀ x, x ∈ qs → (h <= x)%Q.
Proof.
  apply (nanreduce_extremum qmin (λ x y, y <= x)%Q).
  - intros m x. unfold qmin. destruct (Qle_bool m x); auto.
  - intros m x. unfold qmin. destruct (Qle_bool m x) eqn:E.
    + apply Qle_bool_iff in E. split; [apply Qle_refl|done].
    + apply Qle_bool_false in E. split; [by apply Qlt_le_weak|apply Qle_refl].
  - apply Qle_refl.
  - intros x y z ? ?. by eapply Qle_trans.
Qed.

Lemma nansum_Qsum qs : (nansum (Some <$> qs) == Qsum qs)%Q.
Proof.
  unfold nansum.
  cut (∀ acc, (foldl (λ acc c, match c with
                               | Some x => acc + x
                               | None => acc
                               end) acc (Some <$> qs) == acc + Qsum qs)%Q).
  { intros H. rewrite H. ring. }
  induction qs as [|q qs IH]; intros acc; cbn [fmap list_fmap foldl Qsum foldr].
  - ring.
  - rewrite IH. fold (Qsum qs). ring.
Qed.

Lemma truncate_spec q : truncation_of q (truncate q).
Proof.
  unfold truncation_of, truncate. destruct (Qle_bool 0 q) eqn:E.
  - apply Qle_bool_iff in E. split.
    + intros _. split; [apply Qfloor_le|apply Qlt_floor].
    + intros Hq. split.
      * eapply Qlt_le_trans; [|apply Qfloor_le].
        rewrite <- Zlt_Qlt. lia.
      * eapply Qle_trans; [apply Hq|].
        change 0%Q with (inject_Z 0). rewrite <- Zle_Qle.
        rewrite <- (Qfloor_Z 0). by apply Qfloor_resp_le.
  - apply Qle_bool_false in E. split.
    + intros Hq. exfalso. by eapply Qlt_not_le.
    + intros _. split; [apply Qceiling_lt|apply Qle_ceiling].
Qed.

Lemma truncation_of_Qeq q q' v :
  (q == q')%Q → truncation_of q v → truncation_of q' v.
Proof. intros Heq. unfold truncation_of. by rewrite Heq. Qed.

Lemma whole_inject_Z q z : (q == inject_Z z)%Q → whole q = true.
Proof.
  intros Heq. unfold whole. apply Qeq_bool_iff.
  rewrite Heq at 2. by rewrite Qfloor_Z.
Qed.

Lemma magnitude_Qsum qs : (magnitude (Some <$> qs) == Qsum (Qabs <$> qs))%Q.
Proof.
  induction qs as [|q qs IH]; [reflexivity|].
  cbn [fmap list_fmap magnitude Qsum foldr].
  fold (magnitude (Some <$> qs)). fold (Qsum (Qabs <$> qs)). by rewrite IH.
Qed.

(** Numbers that binary64 adds without rounding make a column whose sum
    is exact. *)
Lemma summable_exactly qs :
  summable qs → exactly_summable (Some <$> qs) = true.
Proof.
  intros (k & Hk & Hwhole & Htotal). unfold exactly_summable.
  apply existsb_exists. exists k. split; [apply in_seq; lia|].
  unfold exact_at. apply andb_true_intro. split.
  - apply forallb_forall. intros c Hc. apply in_map_iff in Hc as (q & <- & Hq).
    rewrite Forall_forall in Hwhole.
    destruct (Hwhole q) as [z Hz]; [by apply list_elem_of_In|].
    by eapply whole_inject_Z.
  - apply Qle_bool_iff. by rewrite magnitude_Qsum.
Qed.

Lemma canonical_column_len t n qs :
  canonical t → n ∈ ohlcv → column t n = Some (prices qs) → length qs = len t.
Proof.
  intros (labels & _ & _ & _ & _ & _ & _ & Hnum) Hn Hcol.
  rewrite Forall_forall in Hnum. destruct (Hnum n Hn) as (qs' & Hcol' & <-).
  rewrite Hcol in Hcol'. injection Hcol' as Heq.
  by rewrite <- (length_fmap Some qs), Heq, length_fmap.
Qed.

(** C2 (as amended).  For every canonical table whose first close is not
    zero, [calculate_metrics] returns: the close of the last row; the
    binary64 difference of that close and the close of the first row; this
    change divided by the first close and then multiplied by 100, each in
    binary64; the maximum of the High column; the minimum of the Low
    column; and, when the volumes are numbers that are added without
    rounding, the sum of the Volume column truncated towards zero. *)
Theorem calculate_metrics_spec libsum t closes highs lows volumes first last :
  canonical t →
  column t "Close" = Some (prices closes) →
  column t "High" = Some (prices highs) →
  column t "Low" = Some (prices lows) →
  column t "Volume" = Some (prices volumes) →
  closes !! 0%nat = Some first →
  closes !! (len t - 1)%nat = Some last →
  ¬ (first == 0)%Q →
  ∃ m, calculate_metrics libsum t = OK m
       ∧ last_close m = Some last
       ∧ change m = difference last first
       ∧ pct_change m = percent_of (difference last first) first
       ∧ (∃ h, high m = Some h ∧ h ∈ highs ∧ ∀ x, x ∈ highs → (x <= h)%Q)
       ∧ (∃ l, low m = Some l ∧ l ∈ lows ∧ ∀ x, x ∈ lows → (l <= x)%Q)
       ∧ (summable volumes → truncation_of (Qsum volumes) (volume m)).
Proof.
  intros Hcan HC HH HL HV Hfirst Hlast Hnz.
  assert (length closes = len t) as Hlen
    by (apply (canonical_column_len t "Close"); [done|repeat constructor|done]).
  assert (length highs = len t) as HlenH
    by (apply (canonical_column_len t "High"); [done|repeat constructor|done]).
  assert (length lows = len t) as HlenL
    by (apply (canonical_column_len t "Low"); [done|repeat constructor|done]).
  assert (0 < len t)%nat as Hrows
    by (rewrite <- Hlen; by eapply lookup_lt_Some).
  destruct (nanreduce_max highs) as (h & Hh & Hhin & Hhmax).
  { intros ->. cbn in HlenH. lia. }
  destruct (nanreduce_min lows) as (l & Hl & Hlin & Hlmin).
  { intros ->. cbn in HlenL. lia. }
  unfold calculate_metrics.
  rewrite (canonical_getitem t "Close" _ Hcan HC),
    (canonical_getitem t "High" _ Hcan HH),
    (canonical_getitem t "Low" _ Hcan HL),
    (canonical_getitem t "Volume" _ Hcan HV).
  assert (Qeq_bool first 0 = false) as Hq.
  { destruct (Qeq_bool first 0) eqn:E; [|done]. by apply Qeq_bool_iff in E. }
  rewrite <- Hlen in Hlast.
  repeat first
    [ rewrite bind_OK
    | rewrite (float_iloc_last closes last Hlast)
    | rewrite (float_iloc_first closes first Hfirst)
    | rewrite Hq | rewrite Hh | rewrite Hl
    | progress cbn [fdiv float_reduce int_sum prices] ].
  eexists. split; [reflexivity|].
  cbn [last_close change pct_change high low volume].
  split; [done|]. split; [done|]. split.
  { unfold percent_of, fmul, fsub, difference.
    by destruct (of_float (to_float last - to_float first)). }
  split; [by exists h|]. split; [by exists l|].
  intros Hsum. rewrite (summable_exactly volumes Hsum).
  apply (truncation_of_Qeq (nansum (Some <$> volumes)));
    [apply nansum_Qsum|apply truncate_spec].
Qed.

Lemma table_canonical ts opens highs lows closes volumes :
  length opens = length ts → length highs = length ts →
  length lows = length ts → length closes = length ts →
  length volumes = length ts →
  canonical (table ts opens highs lows closes volumes).
Proof.
  intros Ho Hh Hl Hc Hv.
  exists ["Datetime"; "Open"; "High"; "Low"; "Close"; "Volume"].
  split; [done|]. split; [done|].
  split; [by apply (bool_decide_unpack _)|].
  split; [by apply (bool_decide_unpack _)|].
  split; [by apply (bool_decide_unpack _)|].
  split; [by exists ts|].
  unfold ohlcv. repeat apply Forall_cons_2; [..|apply Forall_nil_2].
  - by exists opens.
  - by exists highs.
  - by exists lows.
  - by exists closes.
  - by exists volumes.
Qed.

Lemma three_volumes_summable : summable [100; 200; 300]%Q.
Proof.
  exists 0%nat. split; [lia|]. split; [|by apply Qle_bool_iff].
  repeat apply Forall_cons_2; [..|apply Forall_nil_2].
  - by exists 100%Z.
  - by exists 200%Z.
  - by exists 300%Z.
Qed.

Lemma calculate_metrics_spec_witness :
  ∃ m, calculate_metrics blank_sum three_rows = OK m
       ∧ last_close m = Some 13%Q
       ∧ change m = difference 13 11
       ∧ pct_change m = percent_of (difference 13 11) 11
       ∧ (∃ h, high m = Some h ∧ h ∈ [12; 13; 14]%Q
               ∧ ∀ x, x ∈ [12; 13; 14]%Q → (x <= h)%Q)
       ∧ (∃ l, low m = Some l ∧ l ∈ [9; 10; 11]%Q
               ∧ ∀ x, x ∈ [9; 10; 11]%Q → (l <= x)%Q)
       ∧ truncation_of (Qsum [100; 200; 300]%Q) (volume m).
Proof.
  destruct (calculate_metrics_spec blank_sum three_rows [11; 12; 13]%Q
              [12; 13; 14]%Q [9; 10; 11]%Q [100; 200; 300]%Q 11%Q 13%Q)
    as (m & Hm & Hlast & Hchange & Hpct & Hhigh & Hlow & Hvolume).
  - by apply table_canonical.
  - reflexivity.
  - reflexivity.
  - reflexivity.
  - reflexivity.
  - reflexivity.
  - reflexivity.
  - intros H. discriminate H.
  - exists m. repeat (split; [assumption|]).
    apply Hvolume, three_volumes_summable.
Defined.

(** On the closes 11 and 13 the change is 2 and the percent change is the
    float nearest to 200/11, [0x1.22e8ba2e8ba2fp+4], which Python prints as
    18.181818181818183. *)
Example three_rows_metrics :
  ∃ c p, difference 13 11 = Some c ∧ (c == 2)%Q
    ∧ percent_of (difference 13 11) 11 = Some p
    ∧ to_float p = 0x1.22e8ba2e8ba2fp+4%float
    ∧ ¬ (p == 200 # 11)%Q.
Proof.
  eexists _, _. split; [vm_compute; reflexivity|]. split; [reflexivity|].
  split; [vm_compute; reflexivity|]. split; [vm_compute; reflexivity|].
  intros H. discriminate H.
Qed.

(** C2 fails as stated.  On a canonical table whose first close is zero the
    division of the percent change raises [ZeroDivisionError] and no
    metrics are returned. *)
Lemma calculate_metrics_zero_close :
  canonical zero_close ∧ len zero_close = 2%nat
  ∧ column zero_close "Close" = Some (prices [0; 5]%Q)
  ∧ ∀ libsum, calculate_metrics libsum zero_close = Raise ZeroDivisionError.
Proof.
  split; [by apply table_canonical|]. by vm_compute.
Qed.

(** Beyond the numbers that are added without rounding the volume is what
    the library makes of the sum: with the volumes [2^53] and 1 it is not
    bound to be their sum. *)
Example volume_beyond_exact libsum :
  ∃ m, calculate_metrics libsum
         (table [0; 300]%Z [1; 2]%Q [1; 2]%Q [1; 2]%Q [1; 2]%Q
            [9007199254740992; 1]%Q) = OK m
       ∧ volume m = libsum [Some 9007199254740992%Q; Some 1%Q].
Proof. eexists. split; [by vm_compute|]. by vm_compute. Qed.

(** ** The handlers *)

Lemma io_bind_OK {A B} (f : A → io B) out a :
  ((out, OK a) ≫= f) = ((out ++ (f a).1)%list, (f a).2).
Proof. unfold mbind, io_bind. by destruct (f a). Qed.

Lemma io_bind_Raise {A B} (f : A → io B) out e :
  ((out, Raise e) ≫= f) = (out, Raise e).
Proof. reflexivity. Qed.

Lemma io_bind_lift_OK {A B} (f : A → io B) a : (lift (OK a) ≫= f) = f a.
Proof. unfold lift. rewrite io_bind_OK. by destruct (f a). Qed.

Lemma io_bind_lift_Raise {A B} (f : A → io B) e :
  (lift (Raise e) ≫= f) = ([], Raise e).
Proof. reflexivity. Qed.

Lemma fetch_stock_data_download yf now ticker period interval :
  ∃ req, fetch_stock_data yf now ticker period interval
         = ([Yf_download req], yf req).
Proof.
  unfold fetch_stock_data, download. case_decide; by eexists.
Qed.

(** C3.  When the fetch returns a table that is empty or has fewer than two
    rows, the main chart shows the warning "Not enough data to display
    chart." and nothing else: the handler returns normally and no stage of
    the pipeline (process_data, normalize_column_names, calculate_metrics,
    add_technical_indicators) is entered. *)
Theorem main_chart_insufficient_data yf now ema libsum ticker period chart_type
    indicators interval out df :
  interval_mapping !! period = Some interval →
  fetch_stock_data yf now ticker period interval = (out, OK df) →
  empty df = true ∨ (len df < 2)%nat →
  main_chart yf now ema libsum ticker period chart_type indicators
  = ((out ++ [St_warning "Not enough data to display chart."])%list, OK ())
  ∧ ∀ stage, Invoked stage ∉ (main_chart yf now ema libsum ticker period
                                chart_type indicators).1.
Proof.
  intros Hmap Hfetch Hshort.
  assert (empty df || (len df <? 2)%nat = true) as Hcond.
  { destruct Hshort as [->|Hlt]; [done|].
    apply orb_true_iff. right. by apply Nat.ltb_lt. }
  assert (main_chart yf now ema libsum ticker period chart_type indicators
          = ((out ++ [St_warning "Not enough data to display chart."])%list,
             OK ())) as Heq.
  { unfold main_chart, dict_get. rewrite Hmap, io_bind_lift_OK, Hfetch.
    rewrite io_bind_OK, Hcond. reflexivity. }
  split; [done|]. rewrite Heq. intros stage. cbn [fst].
  destruct (fetch_stock_data_download yf now ticker period interval)
    as [req Hreq].
  rewrite Hreq in Hfetch. injection Hfetch as <- _.
  intros Hin. repeat (apply elem_of_cons in Hin as [?|Hin]); try discriminate.
  by apply elem_of_nil in Hin.
Qed.

Lemma main_chart_insufficient_data_witness :
  main_chart (constant_source one_row) 0 blank_ema blank_sum "ADBE" "1d"
    "Candlestick" []
  = (([Yf_download (Download_period "ADBE" "1d" "5m")]
      ++ [St_warning "Not enough data to display chart."])%list, OK ())
  ∧ ∀ stage, Invoked stage ∉ (main_chart (constant_source one_row) 0
                                blank_ema blank_sum "ADBE" "1d"
                                "Candlestick" []).1.
Proof.
  apply (main_chart_insufficient_data (constant_source one_row) 0%Z
           blank_ema blank_sum "ADBE" "1d" "Candlestick" [] "5m"
           [Yf_download (Download_period "ADBE" "1d" "5m")] one_row).
  - reflexivity.
  - reflexivity.
  - right. cbn. lia.
Defined.

(** An empty fetch result stops the main chart in the same way. *)
Example main_chart_no_rows :
  main_chart (constant_source no_rows) 0 blank_ema blank_sum "ADBE" "1mo"
    "Line" ["SMA 20"]
  = ([Yf_download (Download_period "ADBE" "1mo" "1d");
      St_warning "Not enough data to display chart."], OK ()).
Proof. reflexivity. Qed.

(** C8.  On a canonical table, when the candlestick chart is requested: with
    fewer than five rows the branch emits the warning "Not enough candles.
    Showing line chart instead." and draws the line chart of Close against
    Datetime; with five rows or more it emits nothing and draws the
    candlestick chart of the Datetime, Open, High, Low and Close columns. *)
Theorem chart_branch_candlestick t :
  canonical t →
  ((len t < 5)%nat →
   chart_branch "Candlestick" t
   = ([St_warning "Not enough candles. Showing line chart instead."],
      OK [Line "Datetime" "Close"]))
  ∧ ((5 ≤ len t)%nat →
     ∃ x o h l c,
       column t "Datetime" = Some x ∧ column t "Open" = Some o
       ∧ column t "High" = Some h ∧ column t "Low" = Some l
       ∧ column t "Close" = Some c
       ∧ chart_branch "Candlestick" t
         = ([], OK [Candlestick (Col x) (Col o) (Col h) (Col l) (Col c)])).
Proof.
  intros Hcan.
  pose proof Hcan as (labels & Hc & _ & Hnd & Hhas & _ & (ts & Hdt & _) & Hnum).
  unfold ohlcv in Hhas, Hnum. rewrite !Forall_cons in Hhas, Hnum.
  destruct Hhas as (Hdti & _ & _ & _ & Hcl & _).
  destruct Hnum as ((o & Ho & _) & (h & Hh & _) & (l & Hl & _) & (c & Hcc & _) & _).
  split.
  - intros Hlt. unfold chart_branch.
    rewrite (bool_decide_eq_true_2 ("Candlestick" = "Candlestick")) by done.
    replace (5 <=? len t)%nat with false by (symmetry; apply Nat.leb_gt; lia).
    cbn [andb]. unfold emit, px_line. rewrite Hc, io_bind_OK.
    rewrite decide_True by done. reflexivity.
  - intros Hge. unfold chart_branch.
    rewrite (bool_decide_eq_true_2 ("Candlestick" = "Candlestick")) by done.
    replace (5 <=? len t)%nat with true by (symmetry; apply Nat.leb_le; lia).
    cbn [andb].
    eexists _, _, _, _, _. repeat (split; [eassumption|]).
    rewrite (canonical_getitem t "Datetime" _ Hcan Hdt), io_bind_lift_OK.
    rewrite (canonical_getitem t "Open" _ Hcan Ho), io_bind_lift_OK.
    rewrite (canonical_getitem t "High" _ Hcan Hh), io_bind_lift_OK.
    rewrite (canonical_getitem t "Low" _ Hcan Hl), io_bind_lift_OK.
    rewrite (canonical_getitem t "Close" _ Hcan Hcc), io_bind_lift_OK.
    reflexivity.
Qed.

Lemma chart_branch_candlestick_witness :
  chart_branch "Candlestick" three_rows
  = ([St_warning "Not enough candles. Showing line chart instead."],
     OK [Line "Datetime" "Close"])
  ∧ ∃ x o h l c,
      column seven_rows "Datetime" = Some x ∧ column seven_rows "Open" = Some o
      ∧ column seven_rows "High" = Some h ∧ column seven_rows "Low" = Some l
      ∧ column seven_rows "Close" = Some c
      ∧ chart_branch "Candlestick" seven_rows
        = ([], OK [Candlestick (Col x) (Col o) (Col h) (Col l) (Col c)]).
Proof.
  split.
  - apply (chart_branch_candlestick three_rows); [by apply table_canonical|].
    cbn. lia.
  - apply (chart_branch_candlestick seven_rows); [by apply table_canonical|].
    cbn. lia.
Defined.

(** The whole handler on three rows: after the metrics, the downgrade warning
    and the line chart. *)
Example main_chart_three_rows :
  let trace :=
    (main_chart (constant_source raw_three) 0 blank_ema blank_sum "XYZ" "1d"
       "Candlestick" []).1 in
  trace !! 9%nat
  = Some (St_warning "Not enough candles. Showing line chart instead.")
  ∧ trace !! 10%nat = Some (St_plotly_chart [Line "Datetime" "Close"] "XYZ" "1d").
Proof. split; reflexivity. Qed.

(** ** The concrete scenario *)

Lemma scenario_normalized name ts opens highs lows volumes :
  (∀ n, name = Some n → n ∉ scenario_flat) →
  normalizer (scenario name ts opens highs lows volumes)
  = OK {| columns := Index ["Datetime"; "Close"; "Open"; "High"; "Low"; "Volume"];
          index := RangeIndex None (length ts);
          data := [Datetime64 (Some "US/Eastern") ts;
                   prices [100; 101; 102; 103; 104; 105; 106; 107; 108; 109]%Q;
                   Float64 opens; Float64 highs; Float64 lows;
                   Float64 volumes] |}.
Proof.
  intros Hname.
  assert (reset_name name scenario_flat ∉ scenario_flat) as Hreset.
  { destruct name as [n|]; [by apply Hname|].
    by apply (bool_decide_unpack _). }
  unfold normalizer, process_data, scenario. cbn [columns index data flat_labels].
  change (flatten_label <$> _) with scenario_flat.
  unfold reset_index. cbn [index_name]. rewrite decide_False by done.
  rewrite bind_OK. cbn [columns index data flat_labels].
  rewrite name_datetime_fresh;
    [|done|by apply (bool_decide_unpack _)|by apply (bool_decide_unpack _)].
  reflexivity.
Qed.

(** C5.  In the concrete scenario (ten rows, timestamps without timezone,
    the five XYZ columns, closes 100 to 109) the pipeline yields a Datetime
    column that carries the same instants, read as UTC, labelled with the
    US/Eastern timezone, and [calculate_metrics] returns a change equal to 9
    and a percent change equal to 9. *)
Theorem scenario_pipeline libsum name ts opens highs lows volumes :
  length ts = 10%nat →
  (∀ n, name = Some n → n ∉ scenario_flat) →
  tz_fixup None = Some "UTC"
  ∧ ∃ t m c p,
      normalizer (scenario name ts opens highs lows volumes) = OK t
      ∧ len t = 10%nat
      ∧ column t "Datetime" = Some (Datetime64 (Some "US/Eastern") ts)
      ∧ calculate_metrics libsum t = OK m
      ∧ change m = Some c ∧ (c == 9)%Q
      ∧ pct_change m = Some p ∧ (p == 9)%Q.
Proof.
  intros Hrows Hname. split; [done|].
  eexists _, _, _, _.
  split; [by apply scenario_normalized|].
  split; [done|]. split; [done|].
  split; [reflexivity|]. cbn [change pct_change].
  split; [reflexivity|]. split; [reflexivity|].
  split; reflexivity.
Qed.

Lemma scenario_pipeline_witness :
  tz_fixup None = Some "UTC"
  ∧ ∃ t m c p,
      normalizer raw_xyz = OK t
      ∧ len t = 10%nat
      ∧ column t "Datetime" = Some (Datetime64 (Some "US/Eastern") ten_instants)
      ∧ calculate_metrics blank_sum t = OK m
      ∧ change m = Some c ∧ (c == 9)%Q
      ∧ pct_change m = Some p ∧ (p == 9)%Q.
Proof.
  apply (scenario_pipeline blank_sum (Some "Datetime") ten_instants).
  - reflexivity.
  - intros n [= <-]. by apply (bool_decide_unpack _).
Defined.

(** In binary64 arithmetic, that of Python floats, the change and the
    percent change of the scenario are computed without rounding error. *)
Example scenario_binary64 :
  PrimFloat.sub 109 100 = 9%float
  ∧ PrimFloat.mul (PrimFloat.div (PrimFloat.sub 109 100) 100) 100 = 9%float.
Proof. split; reflexivity. Qed.

(** ** Indicators *)

Lemma lookup_col_append_new n s labels cols :
  length cols = length labels → n ∉ labels →
  lookup_col n (labels ++ [n]) (cols ++ [s]) = Some s.
Proof.
  revert cols. induction labels as [|l labels IH]; intros [|c cols] Hlen Hn;
    try done; cbn [app lookup_col].
  - by rewrite decide_True.
  - apply not_elem_of_cons in Hn as [Hne Hn].
    rewrite decide_False by congruence. apply IH; [by injection Hlen|done].
Qed.

Lemma lookup_col_append_other n n' s labels cols :
  length cols = length labels → n ≠ n' →
  lookup_col n' (labels ++ [n]) (cols ++ [s]) = lookup_col n' labels cols.
Proof.
  revert cols. induction labels as [|l labels IH]; intros [|c cols] Hlen Hne;
    try done; cbn [app lookup_col].
  - by rewrite decide_False.
  - case_decide; [done|]. apply IH; [by injection Hlen|done].
Qed.

Lemma lookup_col_replace_same n s labels cols :
  length cols = length labels → n ∈ labels →
  lookup_col n labels (replace_col n s labels cols) = Some s.
Proof.
  revert cols. induction labels as [|l labels IH]; intros [|c cols] Hlen Hn;
    try done; [by apply elem_of_nil in Hn|].
  cbn [replace_col lookup_col]. case_decide; [done|].
  apply IH; [by injection Hlen|].
  apply elem_of_cons in Hn as [->|Hn]; done.
Qed.

Lemma lookup_col_replace_other n n' s labels cols :
  n ≠ n' →
  lookup_col n' labels (replace_col n s labels cols) = lookup_col n' labels cols.
Proof.
  intros Hne. revert cols.
  induction labels as [|l labels IH]; intros [|c cols]; try done.
  cbn [replace_col lookup_col]. case_decide as Hl; [|apply IH].
  subst l. by rewrite decide_False by congruence.
Qed.

Lemma length_replace_col n s labels cols :
  length (replace_col n s labels cols) = length cols.
Proof.
  revert cols. induction labels as [|l labels IH]; intros [|c cols]; try done.
  cbn [replace_col length]. by rewrite IH.
Qed.

(** Assigning a column keeps the frame aligned, stores the series under
    its label and leaves the other columns alone. *)
Lemma setitem_aligned t labels n s :
  aligned t labels → ∃ labels', aligned (setitem t n s) labels'.
Proof.
  intros [Hc Hlen]. unfold setitem. rewrite Hc. case_decide.
  - exists labels. split; [done|]. cbn. by rewrite length_replace_col.
  - exists (labels ++ [n])%list. split; [done|]. cbn.
    rewrite !length_app, Hlen. done.
Qed.

Lemma column_setitem_same t labels n s :
  aligned t labels → column (setitem t n s) n = Some s.
Proof.
  intros [Hc Hlen]. unfold setitem, column. rewrite Hc. case_decide; cbn.
  - by apply lookup_col_replace_same.
  - by apply lookup_col_append_new.
Qed.

Lemma column_setitem_other t labels n n' s :
  aligned t labels → n ≠ n' → column (setitem t n s) n' = column t n'.
Proof.
  intros [Hc Hlen] Hne. unfold setitem, column. rewrite Hc. case_decide; cbn.
  - by apply lookup_col_replace_other.
  - by apply lookup_col_append_other.
Qed.

(** A window of the closes, by position. *)
Lemma window_nth (closes : list Q) j n :
  (j + n ≤ length closes)%nat →
  take n (drop j closes) = (λ k : nat, nth (j + k) closes 0%Q) <$> seq 0 n.
Proof.
  intros Hlen. apply list_eq. intros k.
  destruct (decide (k < n)%nat) as [Hk|Hk].
  - rewrite lookup_take_lt, lookup_drop, list_lookup_fmap by done.
    rewrite lookup_seq_lt by done. cbn.
    destruct (nth_lookup_or_length closes (j + k) 0%Q) as [->|?]; [done|lia].
  - rewrite lookup_take_ge, list_lookup_fmap, lookup_seq_ge by lia. done.
Qed.

Lemma sma_indicator_length close window :
  length (sma_indicator close window) = length close.
Proof. unfold sma_indicator. by rewrite length_fmap, length_seq. Qed.

Lemma sma_indicator_early close window i :
  (i < length close)%nat → (i + 1 < window)%nat →
  sma_indicator close window !! i = Some None.
Proof.
  intros Hi Hw. unfold sma_indicator.
  rewrite list_lookup_fmap, lookup_seq_lt by done.
  cbn [fmap option_fmap option_map Nat.add].
  by rewrite (proj2 (Nat.ltb_lt _ _)) by lia.
Qed.

Lemma sma_indicator_20 closes i :
  (19 ≤ i)%nat → (i < length closes)%nat →
  sma_indicator (Some <$> closes) 20 !! i
  = Some (Some (Qsum (take 20 (drop (i - 19) closes)) / inject_Z 20)%Q).
Proof.
  intros Hi Hlen. unfold sma_indicator.
  rewrite list_lookup_fmap, lookup_seq_lt by (by rewrite length_fmap).
  cbn [fmap option_fmap option_map Nat.add].
  rewrite (proj2 (Nat.ltb_ge _ _)) by lia.
  replace (i + 1 - 20)%nat with (i - 19)%nat by lia.
  unfold all_defined. rewrite <- fmap_drop, <- fmap_take.
  by rewrite mapM_fmap_Some.
Qed.

(** C7.  For every close-price sequence held in the Close column of a frame
    with distinct flat labels, [add_technical_indicators] succeeds and the
    SMA_20 column it stores has one entry per row: NaN at every row before
    the twentieth, and from row 19 on the arithmetic mean of the twenty
    closes that end at the row. *)
Theorem sma_20_windowed_mean ema t labels closes :
  aligned t labels → NoDup labels →
  column t "Close" = Some (prices closes) →
  ∃ t' sma,
    add_technical_indicators ema t = OK t'
    ∧ column t' "SMA_20" = Some (Float64 sma)
    ∧ length sma = length closes
    ∧ (∀ i, (i < 19)%nat → (i < length closes)%nat → sma !! i = Some None)
    ∧ (∀ i, (19 ≤ i)%nat → (i < length closes)%nat →
            ∃ m, sma !! i = Some (Some m) ∧ (m == mean_20 closes i)%Q).
Proof.
  intros Hal Hnd Hclose.
  unfold add_technical_indicators.
  rewrite (getitem_column t labels "Close" (prices closes)) by (done || apply Hal).
  rewrite bind_OK. cbn [squeeze prices numbers]. rewrite bind_OK.
  set (sma := sma_indicator (Some <$> closes) 20).
  destruct (setitem_aligned t labels "SMA_20" (Float64 sma) Hal) as [labels' Hal'].
  eexists _, sma. split; [reflexivity|].
  split.
  { rewrite (column_setitem_other _ labels' "EMA_20" "SMA_20") by done.
    by apply (column_setitem_same t labels). }
  split.
  { unfold sma. by rewrite sma_indicator_length, length_fmap. }
  split.
  - intros i Hi Hlen. apply sma_indicator_early; [by rewrite length_fmap|lia].
  - intros i Hi Hlen. eexists. split; [by apply sma_indicator_20|].
    unfold mean_20. rewrite window_nth by lia. reflexivity.
Qed.

Lemma sma_20_windowed_mean_witness :
  ∃ t' sma,
    add_technical_indicators blank_ema thirty_rows = OK t'
    ∧ column t' "SMA_20" = Some (Float64 sma)
    ∧ length sma = length (ramp 30)
    ∧ (∀ i, (i < 19)%nat → (i < length (ramp 30))%nat → sma !! i = Some None)
    ∧ (∀ i, (19 ≤ i)%nat → (i < length (ramp 30))%nat →
            ∃ m, sma !! i = Some (Some m) ∧ (m == mean_20 (ramp 30) i)%Q).
Proof.
  apply (sma_20_windowed_mean blank_ema thirty_rows
           ["Datetime"; "Open"; "High"; "Low"; "Close"; "Volume"] (ramp 30)).
  - split; reflexivity.
  - by apply (bool_decide_unpack _).
  - reflexivity.
Defined.

(** On the closes 1, ..., 30 the first defined average is that of 1, ..., 20. *)
Example sma_20_of_ramp :
  sma_indicator (Some <$> ramp 30) 20 !! 18%nat = Some None
  ∧ ∃ m, sma_indicator (Some <$> ramp 30) 20 !! 19%nat = Some (Some m)
         ∧ (m == 21 # 2)%Q.
Proof. split; [reflexivity|]. eexists. split; reflexivity. Qed.

(** ** The watchlist loop *)

Lemma for_each_cons {A} (x : A) xs (body : A → io unit) :
  for_each (x :: xs) body = (body x;; for_each xs body).
Proof. reflexivity. Qed.

(** An iteration that returns normally is followed by the rest of the loop. *)
Lemma watchlist_continues yf now symbol rest out :
  watch_symbol yf now symbol = (out, OK ()) →
  watchlist yf now (symbol :: rest)
  = ((out ++ (watchlist yf now rest).1)%list, (watchlist yf now rest).2).
Proof.
  intros H. unfold watchlist. rewrite for_each_cons, H.
  by rewrite io_bind_OK.
Qed.

(** An iteration that raises ends the loop. *)
Lemma watchlist_aborts yf now symbol rest out e :
  watch_symbol yf now symbol = (out, Raise e) →
  watchlist yf now (symbol :: rest) = (out, Raise e).
Proof.
  intros H. unfold watchlist. by rewrite for_each_cons, H.
Qed.

(** C10.  In the watchlist loop, a symbol whose fetch returns an empty table
    leaves no trace but the fetch itself: its iteration shows no metric and
    no warning and enters no stage of the pipeline, and the loop goes on
    with the remaining symbols. *)
Theorem watchlist_skips_empty yf now symbol rest df :
  yf (Download_period symbol "1d" "1m") = OK df →
  empty df = true →
  watch_symbol yf now symbol
  = ([Yf_download (Download_period symbol "1d" "1m")], OK ())
  ∧ watchlist yf now (symbol :: rest)
    = (Yf_download (Download_period symbol "1d" "1m")
         :: (watchlist yf now rest).1,
       (watchlist yf now rest).2).
Proof.
  intros Hfetch Hempty.
  assert (watch_symbol yf now symbol
          = ([Yf_download (Download_period symbol "1d" "1m")], OK ())) as Hit.
  { unfold watch_symbol, fetch_stock_data, download.
    rewrite decide_False by done. rewrite Hfetch, io_bind_OK, Hempty.
    reflexivity. }
  split; [done|]. by rewrite (watchlist_continues _ _ _ _ _ Hit).
Qed.

Lemma watchlist_skips_empty_witness :
  watch_symbol (source_except "AAPL" (OK no_rows)) 0 "AAPL"
  = ([Yf_download (Download_period "AAPL" "1d" "1m")], OK ())
  ∧ watchlist (source_except "AAPL" (OK no_rows)) 0 ("AAPL" :: ["GOOGL"; "AMZN"; "MSFT"])
    = (Yf_download (Download_period "AAPL" "1d" "1m")
         :: (watchlist (source_except "AAPL" (OK no_rows)) 0
               ["GOOGL"; "AMZN"; "MSFT"]).1,
       (watchlist (source_except "AAPL" (OK no_rows)) 0
          ["GOOGL"; "AMZN"; "MSFT"]).2).
Proof.
  apply (watchlist_skips_empty (source_except "AAPL" (OK no_rows)) 0%Z "AAPL"
           ["GOOGL"; "AMZN"; "MSFT"] no_rows).
  - reflexivity.
  - reflexivity.
Defined.

(** The body of the [try] shows its metric last: when it raises, it has
    shown nothing. *)
Lemma watch_metric_raise symbol t out e :
  watch_metric symbol t = (out, Raise e) → out = [].
Proof.
  unfold watch_metric.
  destruct (getitem t "Close") as [close|?];
    [rewrite io_bind_lift_OK|by intros [= <- _]].
  destruct (float_iloc close (-1)) as [last_price|?];
    [rewrite io_bind_lift_OK|by intros [= <- _]].
  destruct (getitem t "Open") as [opens|?];
    [rewrite io_bind_lift_OK|by intros [= <- _]].
  destruct (float_iloc opens 0) as [open_price|?];
    [rewrite io_bind_lift_OK|by intros [= <- _]].
  destruct (fdiv (fsub last_price open_price) open_price) as [ratio|?];
    [rewrite io_bind_lift_OK|by intros [= <- _]].
  discriminate.
Qed.

(** C6 (as amended).  In the watchlist loop, an error raised by the metric
    computation of a symbol (the body of the [try]: reading the last Close
    and the first Open, the change and the percent change) is shown as one
    inline warning that names that symbol, and the loop goes on with the
    remaining symbols. *)
Theorem watchlist_metric_error_isolated yf now symbol rest df t out e :
  yf (Download_period symbol "1d" "1m") = OK df →
  empty df = false →
  process_data (flatten_columns df) = OK t →
  watch_metric symbol (normalize_column_names t) = (out, Raise e) →
  watchlist yf now (symbol :: rest)
  = (([Yf_download (Download_period symbol "1d" "1m");
       Invoked "process_data"; Invoked "normalize_column_names";
       Sidebar_warning symbol e] ++ (watchlist yf now rest).1)%list,
     (watchlist yf now rest).2).
Proof.
  intros Hfetch Hempty Hpd Hraise.
  pose proof (watch_metric_raise _ _ _ _ Hraise) as ->.
  apply watchlist_continues.
  unfold watch_symbol, fetch_stock_data, download.
  rewrite decide_False by done. rewrite Hfetch, io_bind_OK, Hempty.
  cbn [negb]. unfold stage. rewrite Hpd, io_bind_OK, io_bind_OK.
  unfold try_except. rewrite Hraise. reflexivity.
Qed.

Lemma watchlist_metric_error_isolated_witness :
  watchlist (source_except "AAPL" (OK (quote_zero_open "AAPL"))) 0
    ("AAPL" :: ["GOOGL"; "AMZN"; "MSFT"])
  = (([Yf_download (Download_period "AAPL" "1d" "1m");
       Invoked "process_data"; Invoked "normalize_column_names";
       Sidebar_warning "AAPL" ZeroDivisionError]
      ++ (watchlist (source_except "AAPL" (OK (quote_zero_open "AAPL"))) 0
            ["GOOGL"; "AMZN"; "MSFT"]).1)%list,
     (watchlist (source_except "AAPL" (OK (quote_zero_open "AAPL"))) 0
        ["GOOGL"; "AMZN"; "MSFT"]).2).
Proof.
  eapply (watchlist_metric_error_isolated
            (source_except "AAPL" (OK (quote_zero_open "AAPL"))) 0%Z "AAPL"
            ["GOOGL"; "AMZN"; "MSFT"] (quote_zero_open "AAPL")).
  - reflexivity.
  - reflexivity.
  - reflexivity.
  - reflexivity.
Defined.

(** C6 fails as stated.  The fetch and the Normalizer run outside the [try]
    of the loop: when the fetch of the first symbol raises, or when
    [process_data] raises on what it returned, no warning is shown for
    that symbol and the loop ends before the other symbols are fetched. *)
Lemma watchlist_not_isolated :
  watchlist (source_except "AAPL" (Raise (DownloadError "rate limited"))) 0
    stock_symbols
  = ([Yf_download (Download_period "AAPL" "1d" "1m")],
     Raise (DownloadError "rate limited"))
  ∧ watchlist (source_except "AAPL" (OK (quote_without_timestamps "AAPL"))) 0
      stock_symbols
    = ([Yf_download (Download_period "AAPL" "1d" "1m"); Invoked "process_data"],
       Raise (AttributeError "tzinfo")).
Proof. split; reflexivity. Qed.

(** ** Fetch requests *)

Lemma offline_ret {A} (a : A) : offline (mret a : io A).
Proof. intros req H. by apply elem_of_nil in H. Qed.

Lemma offline_lift {A} (r : result A) : offline (lift r).
Proof. intros req H. by apply elem_of_nil in H. Qed.

Lemma offline_stage {A} name (r : result A) : offline (stage name r).
Proof.
  intros req [H|H]%elem_of_cons; [discriminate|by apply elem_of_nil in H].
Qed.

Lemma offline_emit ev : (∀ req, ev ≠ Yf_download req) → offline (emit ev).
Proof.
  intros Hev req [H|H]%elem_of_cons; [by eapply Hev|by apply elem_of_nil in H].
Qed.

Lemma offline_bind {A B} (m : io A) (f : A → io B) :
  offline m → (∀ a, offline (f a)) → offline (m ≫= f).
Proof.
  intros Hm Hf req. destruct m as [out [a|e]].
  - rewrite io_bind_OK. cbn [fst].
    intros [H|H]%elem_of_app; [by eapply Hm|by eapply Hf].
  - apply Hm.
Qed.

Lemma offline_try_except {A} (body : io A) handler :
  offline body → (∀ e, offline (handler e)) → offline (try_except body handler).
Proof.
  intros Hb Hh req. unfold try_except. destruct body as [out [a|e]].
  - apply Hb.
  - destruct (handler e) as [out' r] eqn:E. cbn [fst].
    intros [H|H]%elem_of_app; [by eapply Hb|].
    eapply (Hh e req). by rewrite E.
Qed.

Create HintDb offline.
#[local] Hint Resolve offline_ret offline_lift offline_stage offline_try_except
  : offline.
#[local] Hint Extern 1 (offline (emit _)) =>
  apply offline_emit; intros ?; discriminate : offline.
#[local] Hint Extern 2 (offline (_ ≫= _)) =>
  apply offline_bind; [|intros ?] : offline.
#[local] Hint Extern 3 (offline (if ?c then _ else _)) => destruct c : offline.

Lemma offline_chart_branch chart_type df : offline (chart_branch chart_type df).
Proof. unfold chart_branch. auto 20 with offline. Qed.

Lemma offline_watch_metric symbol df : offline (watch_metric symbol df).
Proof. unfold watch_metric. auto 20 with offline. Qed.

#[local] Hint Resolve offline_chart_branch offline_watch_metric : offline.

(** The requests in the trace of a computation that starts with a fetch and
    is offline afterwards. *)
Lemma fetch_then_offline {A} yf now ticker period interval
    (k : DataFrame → io A) req :
  (∀ df, offline (k df)) →
  Yf_download req ∈ (fetch_stock_data yf now ticker period interval ≫= k).1 →
  req = request_for now ticker period interval.
Proof.
  intros Hk. unfold fetch_stock_data, download, request_for, timedelta_days.
  case_decide;
    (destruct (yf _) as [df|e];
     [rewrite io_bind_OK; cbn [fst];
      intros [[= ->]|Hin]%elem_of_cons; [reflexivity|by apply Hk in Hin]
     |intros [[= ->]|Hin]%elem_of_cons;
        [reflexivity|by apply elem_of_nil in Hin]]).
Qed.

Lemma interval_mapping_table period interval :
  interval_mapping !! period = Some interval
  ↔ (period, interval) ∈ interval_table.
Proof.
  assert (interval_mapping = list_to_map interval_table) as -> by reflexivity.
  symmetry. apply elem_of_list_to_map. by apply (bool_decide_unpack _).
Qed.

Lemma elem_of_io_bind {A B} (m : io A) (f : A → io B) ev :
  ev ∈ (m ≫= f).1 → ev ∈ m.1 ∨ ∃ a, ev ∈ (f a).1.
Proof.
  destruct m as [out [a|e]].
  - rewrite io_bind_OK. cbn [fst]. intros [H|H]%elem_of_app; eauto.
  - by left.
Qed.

Lemma offline_after_fetch ema libsum ticker period chart_type indicators df :
  offline
    (if empty df || (len df <? 2)%nat
     then emit (St_warning "Not enough data to display chart.")
     else
       df ← stage "process_data" (process_data df);
       df ← stage "normalize_column_names" (OK (normalize_column_names df));
       m ← stage "calculate_metrics" (calculate_metrics libsum df);
       df ← stage "add_technical_indicators" (add_technical_indicators ema df);
       emit (St_metric (ticker +:+ " Last Price") (last_close m)
               (Some (change m, pct_change m)));;
       emit (St_metric "High" (high m) None);;
       emit (St_metric "Low" (low m) None);;
       emit (St_metric "Volume" (Some (inject_Z (volume m))) None);;
       fig ← chart_branch chart_type df;
       fig ← lift (add_overlays indicators df fig);
       emit (St_plotly_chart fig ticker period);;
       emit (St_subheader "Historical Data");;
       history ← lift (getitems df
                   ["Datetime"; "Open"; "High"; "Low"; "Close"; "Volume"]);
       emit (St_dataframe history);;
       emit (St_subheader "Technical Indicators");;
       technical ← lift (getitems df ["Datetime"; "SMA_20"; "EMA_20"]);
       emit (St_dataframe technical)).
Proof. auto 40 with offline. Qed.

(** C9 (as amended).  The interval table is 1d→5m, 1wk→30m, 1mo→1d, 1y→1wk,
    max→1wk.  A fetch makes exactly one request: for the period 1wk an
    explicit window from seven days before now until now, for every other
    period the period token itself.  Every request of the main chart takes
    its interval from the table; every request of the watchlist loop is for
    the period 1d with the fixed interval 1m. *)
Theorem fetch_requests yf now ema libsum :
  (∀ period interval,
     interval_mapping !! period = Some interval
     ↔ (period, interval) ∈ interval_table)
  ∧ (∀ ticker period interval,
       fetch_stock_data yf now ticker period interval
       = ([Yf_download (request_for now ticker period interval)],
          yf (request_for now ticker period interval)))
  ∧ (∀ ticker period chart_type indicators req,
       Yf_download req ∈ (main_chart yf now ema libsum ticker period
                            chart_type indicators).1 →
       ∃ interval, (period, interval) ∈ interval_table
                   ∧ req = request_for now ticker period interval)
  ∧ (∀ symbols req,
       Yf_download req ∈ (watchlist yf now symbols).1 →
       ∃ symbol, symbol ∈ symbols ∧ req = Download_period symbol "1d" "1m").
Proof.
  split; [apply interval_mapping_table|]. split; [|split].
  - intros ticker period interval.
    unfold fetch_stock_data, download, request_for, timedelta_days.
    by case_decide.
  - intros ticker period chart_type indicators req.
    unfold main_chart, dict_get.
    destruct (interval_mapping !! period) as [interval|] eqn:Hmap.
    + rewrite io_bind_lift_OK. intros Hin. exists interval.
      split; [by apply interval_mapping_table|].
      match type of Hin with
      | _ ∈ (try_except ?body _).1 =>
          assert (Yf_download req ∈ body.1) as Hbody
      end.
      { unfold try_except in Hin.
        destruct (fetch_stock_data yf now ticker period interval ≫= _)
          as [out [a|e]]; [done|].
        cbn [fst] in *. apply elem_of_app in Hin as [Hin|Hin]; [done|].
        apply elem_of_cons in Hin as [Hin|Hin]; [discriminate|].
        by apply elem_of_nil in Hin. }
      apply fetch_then_offline in Hbody; [done|].
      intros df. apply offline_after_fetch.
    + rewrite io_bind_lift_Raise. cbn.
      intros [Hin|Hin]%elem_of_cons; [discriminate|by apply elem_of_nil in Hin].
  - intros symbols req. unfold watchlist.
    induction symbols as [|s symbols IH]; [by intros ?%elem_of_nil|].
    rewrite for_each_cons. intros [Hin|[[] Hin]]%elem_of_io_bind.
    + exists s. split; [constructor|].
      apply (fetch_then_offline yf now s "1d" "1m") in Hin; [done|].
      intros df. cbv zeta. destruct (negb (empty df)); auto 20 with offline.
    + destruct (IH Hin) as (symbol & Hs & ->). exists symbol.
      split; [by constructor|done].
Qed.

(** C9 fails as stated.  The requests of the watchlist loop do not take
    their interval from the table: the period is 1d, for which the table
    gives 5m, and the interval requested is 1m. *)
Lemma watchlist_interval_not_mapped :
  (watchlist (constant_source no_rows) 0 stock_symbols).1
  = [Yf_download (Download_period "AAPL" "1d" "1m");
     Yf_download (Download_period "GOOGL" "1d" "1m");
     Yf_download (Download_period "AMZN" "1d" "1m");
     Yf_download (Download_period "MSFT" "1d" "1m")]
  ∧ interval_mapping !! "1d" = Some "5m".
Proof. split; reflexivity. Qed.

(** ** Running the Normalizer again *)

Lemma canonical_name_range l c :
  canonical_name l = Some c → c ∈ ohlcv.
Proof.
  unfold canonical_name, ohlcv.
  repeat (case_match; [intros [= <-]; repeat constructor|]). done.
Qed.

Lemma canonical_name_fixed c :
  c ∈ ohlcv → canonical_name c = Some c.
Proof.
  unfold ohlcv. intros Hc.
  repeat (apply elem_of_cons in Hc as [->|Hc]); [..|by apply elem_of_nil in Hc];
    reflexivity.
Qed.

(** Renaming is idempotent on every frame: a canonical name contains its
    own substring and none that is tested before it. *)
Lemma normalize_column_names_twice t :
  normalize_column_names (normalize_column_names t)
  = normalize_column_names t.
Proof.
  unfold normalize_column_names. destruct (columns t) as [labels|tuples] eqn:Hc.
  - cbn [columns index data]. f_equal. f_equal.
    rewrite !rename_build_col_map, <- list_fmap_compose.
    apply Forall_fmap_ext_1, Forall_forall. intros l _. cbn.
    destruct (canonical_name l) as [c|] eqn:Hl; cbn.
    + by rewrite (canonical_name_fixed c) by (by eapply canonical_name_range).
    + by rewrite Hl.
  - by rewrite Hc.
Qed.

(** C4 (as amended).  The renaming step is idempotent on an
    already-canonical table: for every canonical table [t],
    [normalize_column_names] yields [t] again, no label being changed. *)
Theorem normalize_column_names_canonical t :
  canonical t → normalize_column_names t = t.
Proof.
  intros (labels & Hc & _ & _ & _ & Hallowed & _).
  unfold normalize_column_names. rewrite Hc.
  destruct t as [cols ix dat]. cbn in *. subst cols. f_equal. f_equal.
  rewrite rename_build_col_map. rewrite <- (list_fmap_id labels) at 2.
  apply Forall_fmap_ext_1. eapply Forall_impl; [exact Hallowed|].
  intros l Hl. cbn in Hl.
  repeat (apply elem_of_cons in Hl as [->|Hl]); [..|by apply elem_of_nil in Hl];
    reflexivity.
Qed.

Lemma normalize_column_names_canonical_witness :
  normalize_column_names three_rows = three_rows.
Proof.
  apply (normalize_column_names_canonical three_rows).
  by apply table_canonical.
Defined.

(** [process_data] never returns the table it was given: it raises on a
    table without timestamp index and otherwise leaves an integer index. *)
Lemma normalizer_never_fixed t : normalizer t ≠ OK t.
Proof.
  unfold normalizer, process_data. destruct (index t) as [name tz ts|name n] eqn:Hix.
  - unfold reset_index. case_decide; [done|].
    rewrite bind_OK. cbn. intros [= Heq].
    apply (f_equal index) in Heq. rewrite Hix in Heq.
    unfold normalize_column_names in Heq. cbn in Heq.
    discriminate.
  - done.
Qed.

(** C4 fails as stated.  The table that the Normalizer makes of the concrete
    scenario is canonical, and running the Normalizer on it again raises:
    its index is the integer range that [reset_index] left, which has no
    [tzinfo].  More generally the Normalizer returns its argument for no
    table at all. *)
Lemma normalizer_not_idempotent :
  (∃ t, normalizer raw_xyz = OK t ∧ canonical t
        ∧ normalizer t = Raise (AttributeError "tzinfo"))
  ∧ ∀ t, normalizer t ≠ OK t.
Proof.
  split; [|apply normalizer_never_fixed].
  eexists. split.
  { apply scenario_normalized. intros n [= <-]. by apply (bool_decide_unpack _). }
  split; [|reflexivity].
  eexists. split; [reflexivity|]. split; [reflexivity|].
  split; [by apply (bool_decide_unpack _)|].
  split; [by apply (bool_decide_unpack _)|].
  split; [by apply (bool_decide_unpack _)|].
  split; [by eexists|].
  unfold ohlcv. repeat apply Forall_cons_2; [..|apply Forall_nil_2];
    eexists; (split; [reflexivity|reflexivity]).
Qed.

(** * Further properties of the code *)

(** ** process_data *)

Lemma length_rename1 old new labels :
  length (rename1 old new labels) = length labels.
Proof. unfold rename1. by rewrite length_fmap. Qed.

Lemma length_name_datetime labels :
  length (name_datetime labels) = length labels.
Proof.
  unfold name_datetime. repeat case_decide; try done.
  - apply length_rename1.
  - destruct labels; [done|apply length_rename1].
Qed.

Lemma length_flat_labels df : length (flat_labels (columns df)) = ncols df.
Proof.
  unfold ncols, flat_labels. destruct (columns df); [done|].
  by rewrite length_fmap.
Qed.

(** What [process_data] does when it succeeds, as an equation. *)
Lemma process_data_OK df t :
  process_data df = OK t →
  ∃ name tz ts,
    index df = DatetimeIndex name tz ts
    ∧ (reset_name name (flat_labels (columns df)) ∉ flat_labels (columns df))
    ∧ t = {| columns :=
               Index (name_datetime
                        ((reset_name name (flat_labels (columns df)))
                           :: flat_labels (columns df)));
             index := RangeIndex None (length ts);
             data := Datetime64 (Some "US/Eastern") ts :: data df |}.
Proof.
  unfold process_data. destruct (index df) as [name tz ts|name n]; [|done].
  unfold reset_index. cbn [index_name]. case_decide; [done|].
  rewrite bind_OK. intros [= <-]. exists name, tz, ts.
  split; [done|]. split; [done|]. by destruct tz.
Qed.

(** X1.  When [process_data] succeeds the table had a timestamp index, and
    the result has flat labels, one column more than the table had, the
    instants of the index as first column, labelled US/Eastern whatever the
    timezone they came with, the other columns unchanged behind it, and
    the integer range index over the same number of rows. *)
Theorem process_data_shape df t :
  process_data df = OK t →
  ∃ name tz ts labels,
    index df = DatetimeIndex name tz ts
    ∧ columns t = Index labels
    ∧ length labels = S (ncols df)
    ∧ data t = Datetime64 (Some "US/Eastern") ts :: data df
    ∧ index t = RangeIndex None (length ts)
    ∧ len t = len df.
Proof.
  intros (name & tz & ts & Hix & _ & ->)%process_data_OK.
  eexists name, tz, ts, _. split; [done|]. split; [reflexivity|].
  split; [|split; [done|split; [done|]]].
  - rewrite length_name_datetime. cbn. by rewrite length_flat_labels.
  - unfold len. by rewrite Hix.
Qed.

Lemma process_data_shape_witness :
  ∃ t, process_data raw_three = OK t
       ∧ ∃ name tz ts labels,
           index raw_three = DatetimeIndex name tz ts
           ∧ columns t = Index labels
           ∧ length labels = S (ncols raw_three)
           ∧ data t = Datetime64 (Some "US/Eastern") ts :: data raw_three
           ∧ index t = RangeIndex None (length ts)
           ∧ len t = len raw_three.
Proof.
  eexists. split; [reflexivity|].
  apply (process_data_shape raw_three). reflexivity.
Defined.

Lemma rename1_elem old new labels l :
  l ∈ rename1 old new labels →
  (l = new ∧ old ∈ labels) ∨ (l ≠ old ∧ l ∈ labels).
Proof.
  unfold rename1. intros (x & -> & Hx)%list_elem_of_fmap.
  case_decide; [left; by subst|by right].
Qed.

Lemma rename1_head first new rest :
  head (rename1 first new (first :: rest)) = Some new.
Proof. unfold rename1. cbn. by rewrite decide_True. Qed.

Lemma name_datetime_labels labels :
  labels ≠ [] →
  "Datetime" ∈ name_datetime labels ∧ "Date" ∉ name_datetime labels.
Proof.
  intros Hne. unfold name_datetime.
  destruct (decide ("Date" ∈ labels)) as [Hd|Hd].
  - split.
    + unfold rename1. apply list_elem_of_fmap. exists "Date".
      by rewrite decide_True.
    + intros [[[=] _]|[? _]]%rename1_elem; done.
  - destruct (decide ("Datetime" ∈ labels)) as [Hdt|Hdt]; [done|].
    destruct labels as [|first rest]; [done|]. split.
    + apply list_elem_of_lookup. exists 0%nat.
      pose proof (rename1_head first "Datetime" rest) as Hh.
      by destruct (rename1 first "Datetime" (first :: rest)); simplify_eq/=.
    + intros [[[=] _]|[_ ?]]%rename1_elem; done.
Qed.

(** X2.  After a successful [process_data] some column is named Datetime and
    none is named Date.  When no column of the table was itself called Date
    or Datetime, it is the first column, the one that holds the timestamps,
    that is named Datetime. *)
Theorem process_data_datetime_label df t :
  process_data df = OK t →
  ∃ labels,
    columns t = Index labels
    ∧ "Datetime" ∈ labels ∧ ("Date" ∉ labels)
    ∧ ("Date" ∉ flat_labels (columns df) →
       "Datetime" ∉ flat_labels (columns df) →
       head labels = Some "Datetime").
Proof.
  intros (name & tz & ts & Hix & Hfresh & ->)%process_data_OK.
  eexists. split; [reflexivity|].
  split; [by apply name_datetime_labels|].
  split; [by apply name_datetime_labels|].
  intros Hd Hdt. by rewrite name_datetime_fresh.
Qed.

Lemma process_data_datetime_label_witness :
  ∃ t, process_data raw_three = OK t
       ∧ ∃ labels,
           columns t = Index labels
           ∧ "Datetime" ∈ labels ∧ ("Date" ∉ labels)
           ∧ ("Date" ∉ flat_labels (columns raw_three) →
              "Datetime" ∉ flat_labels (columns raw_three) →
              head labels = Some "Datetime").
Proof.
  eexists. split; [reflexivity|].
  apply (process_data_datetime_label raw_three). reflexivity.
Defined.

(** X3.  [process_data] fails in exactly two ways: with an [AttributeError]
    when the row index is not a timestamp index, and with a [ValueError]
    when the name under which the index is to become a column (its own
    name, or [index], or [level_0] when [index] is taken) is already the
    label of a column. *)
Theorem process_data_raises df e :
  process_data df = Raise e
  ↔ (∃ name n, index df = RangeIndex name n ∧ e = AttributeError "tzinfo")
    ∨ (∃ name tz ts,
         index df = DatetimeIndex name tz ts
         ∧ reset_name name (flat_labels (columns df))
             ∈ flat_labels (columns df)
         ∧ e = ValueError).
Proof.
  unfold process_data. destruct (index df) as [name tz ts|name n].
  - unfold reset_index. cbn [index_name]. case_decide as Hin.
    + rewrite bind_Raise. split.
      * intros [= <-]. right. by exists name, tz, ts.
      * intros [(? & ? & [=] & _)|(? & ? & ? & _ & _ & ->)]. done.
    + rewrite bind_OK. split; [done|].
      intros [(? & ? & [=] & _)|(? & ? & ? & [= <- _ _] & ? & _)]. done.
  - split.
    + intros [= <-]. left. by exists name, n.
    + intros [(? & ? & _ & ->)|(? & ? & ? & [=] & _)]. done.
Qed.

(** ** Flattening and renaming *)

Lemma rstrip_app_space s :
  PyStr.rstrip (s +:+ " ") = PyStr.rstrip s.
Proof.
  induction s as [|c s IH]; [reflexivity|].
  rewrite append_cons. cbn [PyStr.rstrip]. by rewrite IH.
Qed.

(** X4.  A pair whose second level is the empty string flattens to its
    field alone: the separator that [join] leaves at the end is trimmed by
    [strip], together with any other whitespace around the field. *)
Theorem flatten_label_empty_level f :
  flatten_label [f; EmptyString] = PyStr.strip f.
Proof.
  unfold flatten_label, PyStr.strip. cbn [PyStr.join].
  change (" " +:+ EmptyString) with " ".
  induction f as [|c f IH].
  - reflexivity.
  - rewrite append_cons. cbn [PyStr.lstrip].
    destruct (PyStr.is_space c) eqn:Hc; [exact IH|].
    rewrite !rstrip_cons by done. f_equal. apply rstrip_app_space.
Qed.

(** The flattening that the watchlist loop does itself before calling
    [process_data] is redundant: [process_data] flattens the labels in the
    same way. *)
Lemma process_data_flatten_columns_eq df :
  process_data (flatten_columns df) = process_data df.
Proof. reflexivity. Qed.

(** The new label of a column, spelled out: the first of the five names, in
    the order Open, High, Low, Close, Volume, that occurs in the old label,
    and the old label when none does. *)
Lemma canonical_name_priority l :
  (PyStr.contains "Open" l = true → canonical_name l = Some "Open")
  ∧ (PyStr.contains "Open" l = false → PyStr.contains "High" l = true →
     canonical_name l = Some "High")
  ∧ (PyStr.contains "Open" l = false → PyStr.contains "High" l = false →
     PyStr.contains "Low" l = true → canonical_name l = Some "Low")
  ∧ (PyStr.contains "Open" l = false → PyStr.contains "High" l = false →
     PyStr.contains "Low" l = false → PyStr.contains "Close" l = true →
     canonical_name l = Some "Close")
  ∧ (PyStr.contains "Open" l = false → PyStr.contains "High" l = false →
     PyStr.contains "Low" l = false → PyStr.contains "Close" l = false →
     PyStr.contains "Volume" l = true → canonical_name l = Some "Volume")
  ∧ (PyStr.contains "Open" l = false → PyStr.contains "High" l = false →
     PyStr.contains "Low" l = false → PyStr.contains "Close" l = false →
     PyStr.contains "Volume" l = false → canonical_name l = None).
Proof.
  unfold canonical_name. repeat split; intros; by repeat case_match.
Qed.

(** X5.  [normalize_column_names] touches the labels only: the index and
    the data stay, and there are as many labels as before.  Each label is
    renamed on its own, also when labels repeat: a label in which one of
    the five names occurs becomes the first of them in the order Open,
    High, Low, Close, Volume, and a label in which none occurs stays. *)
Theorem normalize_column_names_pointwise t labels :
  columns t = Index labels →
  ∃ labels',
    normalize_column_names t
    = {| columns := Index labels'; index := index t; data := data t |}
    ∧ length labels' = length labels
    ∧ ∀ i l, labels !! i = Some l →
        ∃ l', labels' !! i = Some l'
          ∧ (PyStr.contains "Open" l = true → l' = "Open")
          ∧ (PyStr.contains "Open" l = false →
             PyStr.contains "High" l = true → l' = "High")
          ∧ (PyStr.contains "Open" l = false →
             PyStr.contains "High" l = false →
             PyStr.contains "Low" l = true → l' = "Low")
          ∧ (PyStr.contains "Open" l = false →
             PyStr.contains "High" l = false →
             PyStr.contains "Low" l = false →
             PyStr.contains "Close" l = true → l' = "Close")
          ∧ (PyStr.contains "Open" l = false →
             PyStr.contains "High" l = false →
             PyStr.contains "Low" l = false →
             PyStr.contains "Close" l = false →
             PyStr.contains "Volume" l = true → l' = "Volume")
          ∧ (PyStr.contains "Open" l = false →
             PyStr.contains "High" l = false →
             PyStr.contains "Low" l = false →
             PyStr.contains "Close" l = false →
             PyStr.contains "Volume" l = false → l' = l).
Proof.
  intros Hc. unfold normalize_column_names. rewrite Hc.
  eexists. split; [reflexivity|]. rewrite rename_build_col_map.
  split; [by rewrite length_fmap|].
  intros i l Hl. eexists. split; [by rewrite list_lookup_fmap, Hl|].
  destruct (canonical_name_priority l) as (H1 & H2 & H3 & H4 & H5 & H6).
  repeat split; intros.
  - by rewrite H1.
  - by rewrite H2.
  - by rewrite H3.
  - by rewrite H4.
  - by rewrite H5.
  - by rewrite H6.
Qed.

Lemma normalize_column_names_pointwise_witness :
  ∃ labels',
    normalize_column_names three_rows
    = {| columns := Index labels'; index := index three_rows;
         data := data three_rows |}
    ∧ length labels'
      = length ["Datetime"; "Open"; "High"; "Low"; "Close"; "Volume"].
Proof.
  destruct (normalize_column_names_pointwise three_rows
              ["Datetime"; "Open"; "High"; "Low"; "Close"; "Volume"] eq_refl)
    as (labels' & Heq & Hlen & _).
  by exists labels'.
Defined.

(** X6.  [normalize_column_names] is idempotent on every frame: renaming
    the result again changes nothing, since each canonical name contains
    itself and none of the names tested before it. *)
Theorem normalize_column_names_idempotent t :
  normalize_column_names (normalize_column_names t)
  = normalize_column_names t.
Proof. apply normalize_column_names_twice. Qed.

(** ** From a raw table to a canonical one *)

(** The table that the Normalizer makes of the five fields of one symbol. *)
Lemma normalizer_two_level raw sym fields name tz ts :
  two_level sym fields raw →
  fields ⊆ ohlcv →
  clean_symbol sym →
  index raw = DatetimeIndex name tz ts →
  (∀ n, name = Some n → n ∉ flat_labels (columns raw)) →
  normalizer raw
  = OK {| columns := Index ("Datetime" :: fields);
          index := RangeIndex None (length ts);
          data := Datetime64 (Some "US/Eastern") ts :: data raw |}.
Proof.
  intros Hcols Hsub Hsym Hix Hname. unfold two_level in Hcols.
  set (flat := flatten_label <$> ((λ f, [f; sym]) <$> fields)).
  assert (∀ x, canonical_name x = None → x ∉ flat) as Hfresh.
  { intros x Hx Hin. destruct (flat_field_named sym fields x) as [c Hc]; try done.
    congruence. }
  assert (reset_name name flat ∉ flat) as Hreset.
  { destruct name as [n|]; cbn.
    - specialize (Hname n eq_refl). by rewrite Hcols in Hname.
    - rewrite decide_False by (by apply Hfresh). by apply Hfresh. }
  unfold normalizer, process_data. rewrite Hcols, Hix. cbn [flat_labels].
  fold flat. unfold reset_index. cbn [index_name].
  rewrite decide_False by done. rewrite bind_OK. cbn [columns index data flat_labels].
  rewrite name_datetime_fresh by (done || by apply Hfresh).
  cbn [fmap result_fmap]. f_equal.
  unfold normalize_column_names; cbn [columns index data].
  rewrite rename_build_col_map. cbn [fmap list_fmap].
  change (list_fmap _ _ ?f flat) with (f <$> flat).
  unfold flat. rewrite canonical_fields by done. by destruct tz.
Qed.

Lemma lookup_col_Forall (P : Series → Prop) n labels cols :
  n ∈ labels → length cols = length labels → Forall P cols →
  ∃ s, lookup_col n labels cols = Some s ∧ P s.
Proof.
  revert cols. induction labels as [|l labels IH]; intros [|c cols] Hn Hlen HP;
    try done; [by apply elem_of_nil in Hn|].
  apply Forall_cons in HP as [Hc HP]. cbn [lookup_col].
  case_decide as Hl; [by exists c|].
  apply IH; [|by injection Hlen|done].
  apply elem_of_cons in Hn as [->|Hn]; done.
Qed.

(** X7.  The Normalizer turns a well-formed raw table into a canonical one:
    when the two-level columns pair the five fields, each once, with a
    single symbol in which none of Open, High, Low, Close occurs, the
    timestamp index is not named like a flattened label, and every column
    holds one number per row, the result is a canonical table, on which
    the metrics, the indicators and the chart can be computed. *)
Theorem normalizer_canonical raw sym fields name tz ts :
  two_level sym fields raw →
  fields ≡ₚ ohlcv →
  clean_symbol sym →
  index raw = DatetimeIndex name tz ts →
  (∀ n, name = Some n → n ∉ flat_labels (columns raw)) →
  length (data raw) = length fields →
  Forall (λ s, ∃ qs, s = prices qs ∧ length qs = length ts) (data raw) →
  ∃ t, normalizer raw = OK t ∧ canonical t ∧ len t = len raw.
Proof.
  intros Hcols Hperm Hsym Hix Hname Hwidth Hnum.
  assert (fields ⊆ ohlcv) as Hsub by (intros f Hf; by rewrite <- Hperm).
  assert ("Datetime" ∉ fields) as Hdt.
  { rewrite Hperm. by apply (bool_decide_unpack _). }
  eexists. split; [by eapply normalizer_two_level|].
  split; [|unfold len; by rewrite Hix].
  exists ("Datetime" :: fields).
  split; [done|]. split; [cbn; by rewrite Hwidth|].
  split.
  { apply NoDup_cons. split; [done|]. rewrite Hperm.
    by apply (bool_decide_unpack _). }
  split.
  { apply Forall_cons. split; [constructor|].
    apply Forall_forall. intros n Hn. right. by rewrite Hperm. }
  split.
  { apply Forall_cons. split; [constructor|].
    apply Forall_forall. intros l Hl. right. apply elem_of_app. left.
    by apply Hsub. }
  split.
  { exists ts. unfold column. cbn. by rewrite decide_True. }
  apply Forall_forall. intros n Hn. unfold column. cbn [columns data lookup_col].
  assert ("Datetime" ∉ ohlcv) as Hno by (by apply (bool_decide_unpack _)).
  rewrite decide_False by (by intros <-).
  destruct (lookup_col_Forall
              (λ s, ∃ qs, s = prices qs ∧ length qs = length ts)
              n fields (data raw)) as (s & -> & qs & -> & Hlen);
    [by rewrite Hperm|done|done|].
  by exists qs.
Qed.

Lemma normalizer_canonical_witness :
  ∃ t, normalizer raw_three = OK t ∧ canonical t ∧ len t = len raw_three.
Proof.
  apply (normalizer_canonical raw_three "XYZ"
           ["Close"; "High"; "Low"; "Open"; "Volume"]
           (Some "Datetime") (Some "UTC") [0; 300; 600]%Z).
  - reflexivity.
  - apply NoDup_Permutation; [by apply (bool_decide_unpack _)..|].
    intros x. unfold ohlcv. rewrite !elem_of_cons, !elem_of_nil. tauto.
  - exact xyz_clean.
  - reflexivity.
  - intros n [= <-]. by apply (bool_decide_unpack _).
  - reflexivity.
  - unfold raw_three. cbn [data].
    repeat apply Forall_cons_2; [..|apply Forall_nil_2]; eexists; by split.
Defined.

(** ** calculate_metrics *)

Lemma length_select (n : string) labels cols :
  length cols = length labels →
  length (select (λ l, bool_decide (l = n)) labels cols) = count_label n labels.
Proof.
  revert cols. induction labels as [|l labels IH]; intros [|c cols] Hlen;
    try done. cbn [select]. injection Hlen as Hlen.
  destruct (decide (l = n)) as [->|Hne].
  - rewrite bool_decide_eq_true_2, count_label_cons_eq by done.
    cbn. by rewrite IH.
  - rewrite bool_decide_eq_false_2, count_label_cons_ne by done. by apply IH.
Qed.

(** X8.  [calculate_metrics] cannot work on a table in which the label Close
    is repeated, as happens when both an adjusted and a plain close are
    renamed to Close: selecting Close then gives a frame, not a series, and
    the conversion of its last row to a float raises [TypeError]
    ([IndexError] when the table has no rows). *)
Theorem calculate_metrics_repeated_close libsum t labels :
  aligned t labels →
  (2 ≤ count_label "Close" labels)%nat →
  calculate_metrics libsum t = Raise TypeError
  ∨ calculate_metrics libsum t = Raise IndexError.
Proof.
  intros [Hc Hlen] Htwice. unfold calculate_metrics, getitem. rewrite Hc.
  pose proof (length_select "Close" labels (data t) Hlen) as Hsel.
  destruct (select _ labels (data t)) as [|s1 [|s2 ss]];
    [cbn in Hsel; lia..|].
  rewrite bind_OK. unfold float_iloc.
  destruct s1; (destruct (py_index _ _); [by left|by right]).
Qed.

Lemma calculate_metrics_repeated_close_witness :
  calculate_metrics blank_sum
    {| columns := Index ["Datetime"; "Close"; "Close"; "High"; "Low"; "Open";
                         "Volume"];
       index := RangeIndex None 2;
       data := Datetime64 (Some "US/Eastern") [0; 86400]%Z
                 :: data raw_adj_close |} = Raise TypeError
  ∨ calculate_metrics blank_sum
      {| columns := Index ["Datetime"; "Close"; "Close"; "High"; "Low"; "Open";
                           "Volume"];
         index := RangeIndex None 2;
         data := Datetime64 (Some "US/Eastern") [0; 86400]%Z
                   :: data raw_adj_close |} = Raise IndexError.
Proof.
  eapply calculate_metrics_repeated_close.
  - split; reflexivity.
  - vm_compute. lia.
Defined.

(** X9.  On a table with flat labels none of which is Close,
    [calculate_metrics] raises [KeyError] for Close, before it reads any
    other column. *)
Theorem calculate_metrics_missing_close libsum t labels :
  columns t = Index labels →
  "Close" ∉ labels →
  calculate_metrics libsum t = Raise (KeyError "Close").
Proof.
  intros Hc Hno. unfold calculate_metrics, getitem. rewrite Hc.
  rewrite (select_absent "Close") by done. reflexivity.
Qed.

Lemma calculate_metrics_missing_close_witness :
  calculate_metrics blank_sum
    {| columns := Index ["Datetime"; "Price"]; index := RangeIndex None 1;
       data := [Datetime64 (Some "US/Eastern") [0]%Z; prices [5]%Q] |}
  = Raise (KeyError "Close").
Proof.
  eapply calculate_metrics_missing_close; [reflexivity|].
  by apply (bool_decide_unpack _).
Defined.

(** X10.  On a table without rows, [calculate_metrics] raises [IndexError]:
    the Close column has no last element. *)
Theorem calculate_metrics_no_rows libsum t labels :
  columns t = Index labels → NoDup labels →
  column t "Close" = Some (Float64 []) →
  calculate_metrics libsum t = Raise IndexError.
Proof.
  intros Hc Hnd Hclose. unfold calculate_metrics.
  rewrite (getitem_column t labels "Close" (Float64 [])) by done.
  reflexivity.
Qed.

Lemma calculate_metrics_no_rows_witness :
  calculate_metrics blank_sum (table [] [] [] [] [] []) = Raise IndexError.
Proof.
  eapply calculate_metrics_no_rows; [reflexivity| |reflexivity].
  by apply (bool_decide_unpack _).
Defined.

(** The metrics of a canonical table whose first close is not zero, as an
    equation. *)
Lemma calculate_metrics_value libsum t closes highs lows volumes first last :
  canonical t →
  column t "Close" = Some (prices closes) →
  column t "High" = Some (prices highs) →
  column t "Low" = Some (prices lows) →
  column t "Volume" = Some (prices volumes) →
  closes !! 0%nat = Some first →
  closes !! (len t - 1)%nat = Some last →
  ¬ (first == 0)%Q →
  calculate_metrics libsum t
  = OK {| last_close := Some last;
          change := difference last first;
          pct_change := percent_of (difference last first) first;
          high := nanreduce qmax (Some <$> highs);
          low := nanreduce qmin (Some <$> lows);
          volume := if exactly_summable (Some <$> volumes)
                    then truncate (nansum (Some <$> volumes))
                    else libsum (Some <$> volumes) |}.
Proof.
  intros Hcan HC HH HL HV Hfirst Hlast Hnz.
  assert (length closes = len t) as Hlen
    by (apply (canonical_column_len t "Close"); [done|repeat constructor|done]).
  assert (Qeq_bool first 0 = false) as Hq.
  { destruct (Qeq_bool first 0) eqn:E; [|done]. by apply Qeq_bool_iff in E. }
  rewrite <- Hlen in Hlast. unfold calculate_metrics.
  rewrite (canonical_getitem t "Close" _ Hcan HC),
    (canonical_getitem t "High" _ Hcan HH),
    (canonical_getitem t "Low" _ Hcan HL),
    (canonical_getitem t "Volume" _ Hcan HV).
  repeat first
    [ rewrite bind_OK
    | rewrite (float_iloc_last closes last Hlast)
    | rewrite (float_iloc_first closes first Hfirst)
    | rewrite Hq
    | progress cbn [fdiv float_reduce int_sum prices] ].
  unfold percent_of, fmul, fsub, difference.
  by destruct (of_float (to_float last - to_float first)).
Qed.

Lemma truncate_Qeq q q' : (q == q')%Q → truncate q = truncate q'.
Proof.
  intros Heq. unfold truncate.
  assert (Qle_bool 0 q = Qle_bool 0 q') as ->.
  { destruct (Qle_bool 0 q) eqn:E, (Qle_bool 0 q') eqn:E'; try done.
    - apply Qle_bool_iff in E. rewrite Heq in E.
      apply Qle_bool_iff in E. congruence.
    - apply Qle_bool_iff in E'. rewrite <- Heq in E'.
      apply Qle_bool_iff in E'. congruence. }
  destruct (Qle_bool 0 q'); by rewrite Heq.
Qed.

Lemma truncate_inject_Z z : truncate (inject_Z z) = z.
Proof.
  unfold truncate. destruct (Qle_bool 0 (inject_Z z));
    [apply Qfloor_Z|apply Qceiling_Z].
Qed.

Lemma Qsum_inject_Z zs :
  (Qsum (inject_Z <$> zs) == inject_Z (foldr Z.add 0%Z zs))%Q.
Proof.
  induction zs as [|z zs IH]; [reflexivity|].
  cbn [fmap list_fmap Qsum foldr]. fold (Qsum (inject_Z <$> zs)).
  rewrite inject_Z_plus. by rewrite IH.
Qed.

(** X11.  When every row of a canonical table has its close between its low
    and its high, the metrics are consistent: the low returned is at most
    the last close, and the last close at most the high returned. *)
Theorem calculate_metrics_bounds libsum t closes highs lows volumes first last :
  canonical t →
  column t "Close" = Some (prices closes) →
  column t "High" = Some (prices highs) →
  column t "Low" = Some (prices lows) →
  column t "Volume" = Some (prices volumes) →
  closes !! 0%nat = Some first →
  closes !! (len t - 1)%nat = Some last →
  ¬ (first == 0)%Q →
  (∀ i lo c hi, lows !! i = Some lo → closes !! i = Some c →
                highs !! i = Some hi → (lo <= c ∧ c <= hi)%Q) →
  ∃ m lo hi,
    calculate_metrics libsum t = OK m
    ∧ low m = Some lo ∧ last_close m = Some last ∧ high m = Some hi
    ∧ (lo <= last)%Q ∧ (last <= hi)%Q.
Proof.
  intros Hcan HC HH HL HV Hfirst Hlast Hnz Hrow.
  assert (length closes = len t) as Hlen
    by (apply (canonical_column_len t "Close"); [done|repeat constructor|done]).
  assert (length highs = len t) as HlenH
    by (apply (canonical_column_len t "High"); [done|repeat constructor|done]).
  assert (length lows = len t) as HlenL
    by (apply (canonical_column_len t "Low"); [done|repeat constructor|done]).
  assert (len t - 1 < len t)%nat as Hrows.
  { apply lookup_lt_Some in Hfirst. lia. }
  destruct (lookup_lt_is_Some_2 highs (len t - 1)) as [hi' Hhi']; [lia|].
  destruct (lookup_lt_is_Some_2 lows (len t - 1)) as [lo' Hlo']; [lia|].
  destruct (Hrow _ _ _ _ Hlo' Hlast Hhi') as [Hlo_c Hc_hi].
  destruct (nanreduce_max highs) as (hi & Hhi & _ & Hmax).
  { intros ->. cbn in HlenH. lia. }
  destruct (nanreduce_min lows) as (lo & Hlo & _ & Hmin).
  { intros ->. cbn in HlenL. lia. }
  eexists _, lo, hi. split; [by eapply calculate_metrics_value|]. cbn.
  split; [done|]. split; [done|]. split; [done|]. split.
  - eapply Qle_trans; [apply Hmin|done]. by eapply list_elem_of_lookup_2.
  - eapply Qle_trans; [done|apply Hmax]. by eapply list_elem_of_lookup_2.
Qed.

Lemma calculate_metrics_bounds_witness :
  ∃ m lo hi,
    calculate_metrics blank_sum three_rows = OK m
    ∧ low m = Some lo ∧ last_close m = Some 13%Q ∧ high m = Some hi
    ∧ (lo <= 13)%Q ∧ (13 <= hi)%Q.
Proof.
  apply (calculate_metrics_bounds blank_sum three_rows [11; 12; 13]%Q
           [12; 13; 14]%Q
           [9; 10; 11]%Q [100; 200; 300]%Q 11%Q 13%Q).
  - by apply table_canonical.
  - reflexivity.
  - reflexivity.
  - reflexivity.
  - reflexivity.
  - reflexivity.
  - reflexivity.
  - intros H. discriminate H.
  - intros [|[|[|i]]] lo c hi; cbn; intros [= <-] [= <-] [= <-];
      split; discriminate.
Defined.

(** In binary64 a finite float minus itself is zero, and zero divided by a
    finite float other than zero is zero. *)
Lemma sub_diag_finite f s m e :
  Prim2SF f = S754_finite s m e → Prim2SF (f - f) = S754_zero false.
Proof.
  intros H. rewrite sub_spec, H. unfold SF64sub, SFsub.
  by rewrite Z.sub_diag.
Qed.

Lemma div_zero_finite f s m e :
  Prim2SF f = S754_finite s m e → Prim2SF (to_float 0 / f) = S754_zero s.
Proof. intros H. by rewrite div_spec, H. Qed.

(** A binary64 value other than zero is a finite float. *)
Lemma binary64_value_finite q :
  binary64_value q → ¬ (q == 0)%Q →
  ∃ s m e, Prim2SF (to_float q) = S754_finite s m e.
Proof.
  intros (q' & Hq' & Heq) Hnz. unfold of_float in Hq'.
  destruct (Prim2SF (to_float q)) as [?|?| |s m e]; try done.
  - injection Hq' as <-. by destruct Hnz.
  - by eexists _, _, _.
Qed.

(** X12.  On a canonical table of a single row the first and the last close
    are the same cell, a binary64 value, so that the change and the percent
    change are zero; this is why the caller asks for two rows. *)
Theorem calculate_metrics_single_row libsum t closes highs lows volumes first :
  canonical t →
  len t = 1%nat →
  column t "Close" = Some (prices closes) →
  column t "High" = Some (prices highs) →
  column t "Low" = Some (prices lows) →
  column t "Volume" = Some (prices volumes) →
  closes !! 0%nat = Some first →
  ¬ (first == 0)%Q →
  binary64_value first →
  ∃ m c p,
    calculate_metrics libsum t = OK m
    ∧ last_close m = Some first
    ∧ change m = Some c ∧ (c == 0)%Q
    ∧ pct_change m = Some p ∧ (p == 0)%Q.
Proof.
  intros Hcan Hone HC HH HL HV Hfirst Hnz Hfloat.
  destruct (binary64_value_finite first Hfloat Hnz) as (s & m & e & Hfin).
  assert (difference first first = Some 0%Q) as Hdiff.
  { unfold difference, of_float. by rewrite (sub_diag_finite _ s m e). }
  assert (percent_of (Some 0%Q) first = Some 0%Q) as Hpct.
  { unfold percent_of. cbn [mbind option_bind].
    unfold of_float at 2. rewrite (div_zero_finite _ s m e Hfin).
    cbn [mbind option_bind]. by vm_compute. }
  eexists _, 0%Q, 0%Q. split.
  { eapply calculate_metrics_value; try done. by rewrite Hone. }
  cbn [last_close change pct_change]. rewrite Hdiff, Hpct. done.
Qed.

Lemma calculate_metrics_single_row_witness :
  ∃ m c p,
    calculate_metrics blank_sum (table [0]%Z [5]%Q [7]%Q [4]%Q [6]%Q [10]%Q)
    = OK m
    ∧ last_close m = Some 6%Q
    ∧ change m = Some c ∧ (c == 0)%Q
    ∧ pct_change m = Some p ∧ (p == 0)%Q.
Proof.
  apply (calculate_metrics_single_row blank_sum _ [6]%Q [7]%Q [4]%Q [10]%Q).
  - by apply table_canonical.
  - reflexivity.
  - reflexivity.
  - reflexivity.
  - reflexivity.
  - reflexivity.
  - reflexivity.
  - intros H. discriminate H.
  - eexists. split; reflexivity.
Defined.

Lemma Qsum_Qabs_inject_Z zs :
  (Qsum (Qabs <$> (inject_Z <$> zs))
   == inject_Z (foldr (λ z acc, Z.abs z + acc)%Z 0%Z zs))%Q.
Proof.
  induction zs as [|z zs IH]; [reflexivity|].
  cbn [fmap list_fmap Qsum foldr].
  fold (Qsum (Qabs <$> (inject_Z <$> zs))).
  rewrite inject_Z_plus, IH. reflexivity.
Qed.

(** Whole numbers whose magnitudes total at most [2^53] are added without
    rounding. *)
Lemma summable_inject_Z zs :
  (foldr (λ z acc, Z.abs z + acc) 0 zs ≤ 2 ^ 53)%Z →
  summable (inject_Z <$> zs).
Proof.
  intros Hle. exists 0%nat. split; [lia|]. split.
  - apply Forall_forall. intros q Hq.
    apply list_elem_of_fmap in Hq as (z & -> & _). exists z.
    unfold scale. change (2 ^ Z.of_nat 0)%Z with 1%Z. apply Qmult_1_r.
  - rewrite Qsum_Qabs_inject_Z. unfold scale.
    change (2 ^ Z.of_nat 0)%Z with 1%Z.
    rewrite Qmult_1_r. by rewrite <- Zle_Qle.
Qed.

(** X13.  When the volumes are whole numbers whose magnitudes total at most
    [2^53], the volume returned is their exact sum: neither the additions
    nor the truncation to an integer lose anything. *)
Theorem calculate_metrics_integer_volume libsum t closes highs lows zs first
    last :
  canonical t →
  column t "Close" = Some (prices closes) →
  column t "High" = Some (prices highs) →
  column t "Low" = Some (prices lows) →
  column t "Volume" = Some (prices (inject_Z <$> zs)) →
  closes !! 0%nat = Some first →
  closes !! (len t - 1)%nat = Some last →
  ¬ (first == 0)%Q →
  (foldr (λ z acc, Z.abs z + acc) 0 zs ≤ 2 ^ 53)%Z →
  ∃ m, calculate_metrics libsum t = OK m ∧ volume m = foldr Z.add 0%Z zs.
Proof.
  intros Hcan HC HH HL HV Hfirst Hlast Hnz Hle.
  eexists. split; [by eapply calculate_metrics_value|]. cbn [volume].
  rewrite (summable_exactly _ (summable_inject_Z zs Hle)).
  rewrite <- (truncate_inject_Z (foldr Z.add 0%Z zs)).
  apply truncate_Qeq. rewrite nansum_Qsum. apply Qsum_inject_Z.
Qed.

Lemma calculate_metrics_integer_volume_witness :
  ∃ m, calculate_metrics blank_sum three_rows = OK m
       ∧ volume m = foldr Z.add 0%Z [100; 200; 300]%Z.
Proof.
  apply (calculate_metrics_integer_volume blank_sum three_rows [11; 12; 13]%Q
           [12; 13; 14]%Q [9; 10; 11]%Q [100; 200; 300]%Z 11%Q 13%Q).
  - by apply table_canonical.
  - reflexivity.
  - reflexivity.
  - reflexivity.
  - reflexivity.
  - reflexivity.
  - reflexivity.
  - intros H. discriminate H.
  - by vm_compute.
Defined.

(** ** add_technical_indicators *)

(** The labels of a frame after an assignment to the column [n]. *)
Lemma setitem_labels t labels n s :
  aligned t labels →
  aligned (setitem t n s)
    (if decide (n ∈ labels) then labels else (labels ++ [n])%list).
Proof.
  intros [Hc Hlen]. unfold setitem. rewrite Hc. case_decide.
  - split; [done|]. cbn. by rewrite length_replace_col.
  - split; [done|]. cbn. by rewrite !length_app, Hlen.
Qed.

Lemma setitem_NoDup labels (n : string) :
  NoDup labels →
  NoDup (if decide (n ∈ labels) then labels else (labels ++ [n])%list).
Proof.
  intros Hnd. case_decide; [done|].
  apply NoDup_app. split; [done|]. split; [|apply NoDup_singleton].
  intros x Hx ->%list_elem_of_singleton. done.
Qed.

Lemma index_setitem t n s : index (setitem t n s) = index t.
Proof. unfold setitem. destruct (columns t); [by case_decide|done]. Qed.

Lemma lookup_col_Some_elem n labels cols s :
  lookup_col n labels cols = Some s → n ∈ labels.
Proof.
  revert cols. induction labels as [|l labels IH]; intros [|c cols]; try done.
  cbn [lookup_col]. case_decide as Hl; [subst; constructor|].
  intros H. right. by eapply IH.
Qed.

Lemma replace_col_same n s labels cols :
  NoDup labels → lookup_col n labels cols = Some s →
  replace_col n s labels cols = cols.
Proof.
  revert cols. induction labels as [|l labels IH]; intros [|c cols] Hnd H;
    try done.
  apply NoDup_cons in Hnd as [Hl Hnd]. cbn [lookup_col replace_col] in *.
  case_decide as Heq.
  - injection H as ->. subst l. f_equal.
    clear IH Hnd. revert cols.
    induction labels as [|l labels IH]; intros [|c cols]; try done.
    apply not_elem_of_cons in Hl as [Hne Hl]. cbn [replace_col].
    rewrite decide_False by congruence. f_equal. by apply IH.
  - f_equal. by apply IH.
Qed.

(** Storing in a column the series it already holds changes nothing. *)
Lemma setitem_same t labels n s :
  aligned t labels → NoDup labels → column t n = Some s → setitem t n s = t.
Proof.
  intros [Hc Hlen] Hnd Hcol. unfold setitem, column in *. rewrite Hc in *.
  rewrite decide_True by (by eapply lookup_col_Some_elem).
  rewrite (replace_col_same n s labels (data t)) by done.
  destruct t; cbn in *. by subst.
Qed.

(** What [add_technical_indicators] returns on a frame with a numeric Close
    column. *)
Lemma add_technical_indicators_OK ema t labels close :
  aligned t labels → NoDup labels →
  column t "Close" = Some (Float64 close) →
  add_technical_indicators ema t
  = OK (setitem (setitem t "SMA_20" (Float64 (sma_indicator close 20)))
          "EMA_20" (Float64 (ema close 20))).
Proof.
  intros Hal Hnd Hclose. unfold add_technical_indicators.
  rewrite (getitem_column t labels "Close" (Float64 close))
    by (done || apply Hal).
  rewrite bind_OK. cbn [squeeze numbers]. by rewrite bind_OK.
Qed.

(** Where Close is not a single column.  A single row in which the label
    is repeated squeezes to a series over the repeated label, which cannot
    be stored; the single cell of an unflattened one-row table squeezes to a
    scalar, which has no rolling window. *)
Example add_technical_indicators_repeated_close_row ema :
  add_technical_indicators ema
    {| columns := Index ["Close"; "Close"]; index := RangeIndex None 1;
       data := [prices [1]%Q; prices [2]%Q] |} = Raise ValueError.
Proof. reflexivity. Qed.

Example add_technical_indicators_single_cell ema :
  add_technical_indicators ema one_row = Raise (AttributeError "rolling").
Proof. reflexivity. Qed.

(** X14.  On a frame with distinct flat labels and a numeric Close column,
    [add_technical_indicators] adds and removes nothing else: the row
    index stays, every column other than SMA_20 and EMA_20 holds what it
    held, and the EMA_20 column holds the exponential average of the
    closes over 20 periods as the library returns it. *)
Theorem add_technical_indicators_keeps ema t labels close :
  aligned t labels → NoDup labels →
  column t "Close" = Some (Float64 close) →
  ∃ t',
    add_technical_indicators ema t = OK t'
    ∧ index t' = index t
    ∧ column t' "EMA_20" = Some (Float64 (ema close 20))
    ∧ ∀ n, n ≠ "SMA_20" → n ≠ "EMA_20" → column t' n = column t n.
Proof.
  intros Hal Hnd Hclose.
  pose proof (setitem_labels t labels "SMA_20"
                (Float64 (sma_indicator close 20)) Hal) as Hal'.
  eexists. split; [by eapply add_technical_indicators_OK|].
  split; [by rewrite !index_setitem|]. split.
  - by eapply column_setitem_same.
  - intros n Hs He.
    rewrite (column_setitem_other _ _ "EMA_20" n _ Hal') by done.
    by rewrite (column_setitem_other _ _ "SMA_20" n _ Hal) by done.
Qed.

Lemma add_technical_indicators_keeps_witness :
  ∃ t',
    add_technical_indicators blank_ema three_rows = OK t'
    ∧ index t' = index three_rows
    ∧ column t' "EMA_20"
      = Some (Float64 (blank_ema (Some <$> [11; 12; 13]%Q) 20))
    ∧ ∀ n, n ≠ "SMA_20" → n ≠ "EMA_20" → column t' n = column three_rows n.
Proof.
  apply (add_technical_indicators_keeps blank_ema three_rows
           ["Datetime"; "Open"; "High"; "Low"; "Close"; "Volume"]).
  - split; reflexivity.
  - by apply (bool_decide_unpack _).
  - reflexivity.
Defined.

(** X15.  [add_technical_indicators] is idempotent: run on its own result
    it finds the same closes, computes the same two series and stores them
    in the columns that already hold them. *)
Theorem add_technical_indicators_twice ema t labels close t' :
  aligned t labels → NoDup labels →
  column t "Close" = Some (Float64 close) →
  add_technical_indicators ema t = OK t' →
  add_technical_indicators ema t' = OK t'.
Proof.
  intros Hal Hnd Hclose.
  rewrite (add_technical_indicators_OK ema t labels close) by done.
  intros [= <-].
  set (s := Float64 (sma_indicator close 20)).
  set (e := Float64 (ema close 20)).
  pose proof (setitem_labels t labels "SMA_20" s Hal) as Hal1.
  pose proof (setitem_NoDup labels "SMA_20" Hnd) as Hnd1.
  pose proof (setitem_labels _ _ "EMA_20" e Hal1) as Hal2.
  pose proof (setitem_NoDup _ "EMA_20" Hnd1) as Hnd2.
  assert (column (setitem (setitem t "SMA_20" s) "EMA_20" e) "Close"
          = Some (Float64 close)) as Hclose2.
  { rewrite (column_setitem_other _ _ "EMA_20" "Close" _ Hal1) by done.
    by rewrite (column_setitem_other _ _ "SMA_20" "Close" _ Hal) by done. }
  rewrite (add_technical_indicators_OK ema _ _ close Hal2 Hnd2 Hclose2).
  fold s e. f_equal.
  rewrite (setitem_same _ _ "SMA_20" s Hal2 Hnd2).
  - by apply (setitem_same _ _ "EMA_20" e Hal2 Hnd2),
      (column_setitem_same _ _ _ _ Hal1).
  - rewrite (column_setitem_other _ _ "EMA_20" "SMA_20" _ Hal1) by done.
    by apply (column_setitem_same _ _ _ _ Hal).
Qed.

Lemma add_technical_indicators_twice_witness :
  ∃ t', add_technical_indicators blank_ema three_rows = OK t'
        ∧ add_technical_indicators blank_ema t' = OK t'.
Proof.
  eexists. split; [reflexivity|].
  apply (add_technical_indicators_twice blank_ema three_rows
           ["Datetime"; "Open"; "High"; "Low"; "Close"; "Volume"]
           (Some <$> [11; 12; 13]%Q)).
  - split; reflexivity.
  - by apply (bool_decide_unpack _).
  - reflexivity.
  - reflexivity.
Defined.

(** ** The main chart *)

Lemma never_ret {A} P (a : A) : never P (mret a : io A).
Proof. intros ev H. by apply elem_of_nil in H. Qed.

Lemma never_lift {A} P (r : result A) : never P (lift r).
Proof. intros ev H. by apply elem_of_nil in H. Qed.

Lemma never_emit P ev : ¬ P ev → never P (emit ev).
Proof.
  intros Hev ev' [->|H]%elem_of_cons; [done|by apply elem_of_nil in H].
Qed.

Lemma never_stage {A} P name (r : result A) :
  ¬ P (Invoked name) → never P (stage name r).
Proof.
  intros Hev ev' [->|H]%elem_of_cons; [done|by apply elem_of_nil in H].
Qed.

Lemma never_bind {A B} P (m : io A) (f : A → io B) :
  never P m → (∀ a, never P (f a)) → never P (m ≫= f).
Proof.
  intros Hm Hf ev. destruct m as [out [a|e]].
  - rewrite io_bind_OK. cbn [fst].
    intros [H|H]%elem_of_app; [by eapply Hm|by eapply Hf].
  - apply Hm.
Qed.

Lemma never_fetch P yf now ticker period interval :
  (∀ req, ¬ P (Yf_download req)) →
  never P (fetch_stock_data yf now ticker period interval).
Proof.
  intros HP ev. destruct (fetch_stock_data_download yf now ticker period interval)
    as [req ->].
  intros [->|H]%elem_of_cons; [apply HP|by apply elem_of_nil in H].
Qed.

Create HintDb never.
#[local] Hint Resolve never_ret never_lift : never.
#[local] Hint Extern 1 (never is_error (emit _)) =>
  apply never_emit; intros [? [=]] : never.
#[local] Hint Extern 1 (never is_error (stage _ _)) =>
  apply never_stage; intros [? [=]] : never.
#[local] Hint Extern 1 (never is_error (fetch_stock_data _ _ _ _ _)) =>
  apply never_fetch; intros ? [? [=]] : never.
#[local] Hint Extern 2 (never _ (_ ≫= _)) =>
  apply never_bind; [|intros ?] : never.
#[local] Hint Extern 3 (never _ (if ?c then _ else _)) => destruct c : never.

Lemma never_error_chart_branch chart_type df :
  never is_error (chart_branch chart_type df).
Proof. unfold chart_branch. auto 20 with never. Qed.

#[local] Hint Resolve never_error_chart_branch : never.

(** X16.  The main chart never lets an exception escape: it always returns
    normally.  Either it reports no error at all, or the body of its [try]
    raised, and then exactly one error is reported, as the last event. *)
Theorem main_chart_error_boundary yf now ema libsum ticker period chart_type
    indicators :
  ∃ out,
    main_chart yf now ema libsum ticker period chart_type indicators
    = (out, OK ())
    ∧ ((∀ ev, ev ∈ out → ¬ is_error ev)
       ∨ ∃ out' e, out = (out' ++ [St_error e])%list
                   ∧ ∀ ev, ev ∈ out' → ¬ is_error ev).
Proof.
  unfold main_chart.
  match goal with
  | |- context [try_except ?body _] =>
      assert (never is_error body) as Hbody
        by (unfold dict_get; auto 40 with never);
      destruct body as [out [[]|e]]
  end; unfold try_except, emit.
  - exists out. split; [done|]. by left.
  - eexists. split; [reflexivity|]. right. by exists out, e.
Qed.

(** X17.  A period for which the interval table has no entry is reported as
    a [KeyError] for that period, and no request is made to the data
    source. *)
Theorem main_chart_unknown_period yf now ema libsum ticker period chart_type
    indicators :
  interval_mapping !! period = None →
  main_chart yf now ema libsum ticker period chart_type indicators
  = ([St_error (KeyError period)], OK ()).
Proof.
  intros Hmap. unfold main_chart, dict_get. by rewrite Hmap.
Qed.

Lemma main_chart_unknown_period_witness :
  main_chart (constant_source raw_xyz) 0 blank_ema blank_sum "XYZ" "5d"
    "Line" []
  = ([St_error (KeyError "5d")], OK ()).
Proof.
  apply (main_chart_unknown_period (constant_source raw_xyz) 0%Z blank_ema
           blank_sum).
  reflexivity.
Defined.

(** X18.  When the data source raises, the main chart reports that error
    right after the request and enters no stage of the pipeline. *)
Theorem main_chart_fetch_error yf now ema libsum ticker period chart_type
    indicators interval e :
  interval_mapping !! period = Some interval →
  yf (request_for now ticker period interval) = Raise e →
  main_chart yf now ema libsum ticker period chart_type indicators
  = ([Yf_download (request_for now ticker period interval); St_error e],
     OK ()).
Proof.
  intros Hmap Hfetch. unfold main_chart, dict_get.
  rewrite Hmap, io_bind_lift_OK.
  assert (fetch_stock_data yf now ticker period interval
          = ([Yf_download (request_for now ticker period interval)],
             Raise e)) as ->.
  { rewrite <- Hfetch.
    unfold fetch_stock_data, download, request_for, timedelta_days.
    by case_decide. }
  reflexivity.
Qed.

Lemma main_chart_fetch_error_witness :
  main_chart (source_except "ADBE" (Raise (DownloadError "no network"))) 0
    blank_ema blank_sum "ADBE" "1d" "Candlestick" []
  = ([Yf_download (request_for 0 "ADBE" "1d" "5m");
      St_error (DownloadError "no network")], OK ()).
Proof.
  apply (main_chart_fetch_error
           (source_except "ADBE" (Raise (DownloadError "no network"))) 0%Z
           blank_ema blank_sum "ADBE" "1d" "Candlestick" [] "5m").
  - reflexivity.
  - reflexivity.
Defined.

(** X19.  When [calculate_metrics] raises on the normalized table, for
    instance because the label Close is repeated, the main chart shows
    the error and nothing else: no metric, no chart and no table, and
    [add_technical_indicators] is not entered. *)
Theorem main_chart_metrics_error yf now ema libsum ticker period chart_type
    indicators interval df t e :
  interval_mapping !! period = Some interval →
  yf (request_for now ticker period interval) = OK df →
  empty df = false → (2 ≤ len df)%nat →
  process_data df = OK t →
  calculate_metrics libsum (normalize_column_names t) = Raise e →
  main_chart yf now ema libsum ticker period chart_type indicators
  = ([Yf_download (request_for now ticker period interval);
      Invoked "process_data"; Invoked "normalize_column_names";
      Invoked "calculate_metrics"; St_error e], OK ()).
Proof.
  intros Hmap Hfetch Hempty Hlen Hpd Hcm. unfold main_chart, dict_get.
  rewrite Hmap, io_bind_lift_OK.
  assert (fetch_stock_data yf now ticker period interval
          = ([Yf_download (request_for now ticker period interval)],
             OK df)) as ->.
  { rewrite <- Hfetch.
    unfold fetch_stock_data, download, request_for, timedelta_days.
    by case_decide. }
  rewrite io_bind_OK, Hempty.
  replace (len df <? 2)%nat with false by (symmetry; apply Nat.ltb_ge; lia).
  cbn [orb]. unfold stage. rewrite Hpd, io_bind_OK, io_bind_OK, Hcm.
  reflexivity.
Qed.

Lemma main_chart_metrics_error_witness :
  main_chart (constant_source raw_adj_close) 0 blank_ema blank_sum "XYZ" "1mo"
    "Candlestick" []
  = ([Yf_download (request_for 0 "XYZ" "1mo" "1d");
      Invoked "process_data"; Invoked "normalize_column_names";
      Invoked "calculate_metrics"; St_error TypeError], OK ()).
Proof.
  eapply (main_chart_metrics_error (constant_source raw_adj_close) 0%Z
            blank_ema blank_sum "XYZ" "1mo" "Candlestick" [] "1d"
            raw_adj_close).
  - reflexivity.
  - reflexivity.
  - reflexivity.
  - cbn. lia.
  - reflexivity.
  - reflexivity.
Defined.

Lemma io_bind_mret {A B} (f : A → io B) a : (mret a ≫= f) = f a.
Proof. apply (io_bind_lift_OK f a). Qed.

(** X20.  For every chart type other than Candlestick the branch draws the
    line chart of Close against Datetime and emits no warning, whatever the
    number of rows, provided the frame has both columns. *)
Theorem chart_branch_other_type chart_type t labels :
  chart_type ≠ "Candlestick" →
  columns t = Index labels →
  "Datetime" ∈ labels → "Close" ∈ labels →
  chart_branch chart_type t = ([], OK [Line "Datetime" "Close"]).
Proof.
  intros Hct Hc Hd Hcl. unfold chart_branch.
  rewrite bool_decide_eq_false_2 by done. cbn [andb].
  rewrite io_bind_mret. unfold px_line. rewrite Hc.
  by rewrite decide_True.
Qed.

Lemma chart_branch_other_type_witness :
  chart_branch "Line" seven_rows = ([], OK [Line "Datetime" "Close"]).
Proof.
  apply (chart_branch_other_type "Line" seven_rows
           ["Datetime"; "Open"; "High"; "Low"; "Close"; "Volume"]).
  - discriminate.
  - reflexivity.
  - by apply (bool_decide_unpack _).
  - by apply (bool_decide_unpack _).
Defined.

Lemma add_overlays_omap indicators t fig x sma ema :
  getitem t "Datetime" = OK x →
  getitem t "SMA_20" = OK sma →
  getitem t "EMA_20" = OK ema →
  add_overlays indicators t fig
  = OK (fig ++ omap (overlay_of x sma ema) indicators)%list.
Proof.
  intros Hx Hs He. revert fig.
  induction indicators as [|i indicators IH]; intros fig; cbn [add_overlays].
  { cbn. by rewrite app_nil_r. }
  change (omap ?f (i :: indicators))
    with (match f i with
          | Some y => y :: omap f indicators
          | None => omap f indicators
          end).
  destruct (decide (i = "SMA 20")) as [->|Hns].
  - rewrite bool_decide_eq_true_2 by done.
    rewrite Hx, Hs, !bind_OK, IH. cbn. by rewrite <- app_assoc.
  - rewrite bool_decide_eq_false_2 by done.
    destruct (decide (i = "EMA 20")) as [->|Hne].
    + rewrite bool_decide_eq_true_2 by done.
      rewrite Hx, He, !bind_OK, IH. cbn. by rewrite <- app_assoc.
    + rewrite bool_decide_eq_false_2 by done. rewrite bind_OK, IH.
      unfold overlay_of at 2. by rewrite !decide_False by done.
Qed.

(** X21.  The indicator loop keeps the figure it is given as a prefix and
    appends one overlay per selected indicator, in the order of the
    selection: SMA 20 and EMA 20 give the scatter of their column against
    Datetime, and any other name adds nothing. *)
Theorem add_overlays_appends indicators t fig x sma ema :
  getitem t "Datetime" = OK x →
  getitem t "SMA_20" = OK sma →
  getitem t "EMA_20" = OK ema →
  add_overlays indicators t fig
  = OK (fig ++ omap (overlay_of x sma ema) indicators)%list.
Proof. apply add_overlays_omap. Qed.

Lemma add_overlays_appends_witness :
  add_overlays ["EMA 20"; "RSI"; "SMA 20"]
    (setitem (setitem three_rows "SMA_20" (Float64 [None; None; None]))
       "EMA_20" (Float64 [None; None; None]))
    [Line "Datetime" "Close"]
  = OK ([Line "Datetime" "Close"]
        ++ omap (overlay_of (Col (Datetime64 (Some "US/Eastern") [0; 300; 600]%Z))
                   (Col (Float64 [None; None; None]))
                   (Col (Float64 [None; None; None])))
             ["EMA 20"; "RSI"; "SMA 20"])%list.
Proof.
  apply add_overlays_appends; reflexivity.
Defined.

(** ** The watchlist loop, continued *)

(** X22.  In the watchlist loop an exception raised by the fetch of a symbol
    is not caught: it leaves the loop, no warning is shown for the symbol
    and the symbols after it are not fetched. *)
Theorem watchlist_fetch_error yf now symbol rest e :
  yf (Download_period symbol "1d" "1m") = Raise e →
  watchlist yf now (symbol :: rest)
  = ([Yf_download (Download_period symbol "1d" "1m")], Raise e).
Proof.
  intros Hfetch. apply watchlist_aborts.
  unfold watch_symbol, fetch_stock_data, download.
  rewrite decide_False by done. by rewrite Hfetch.
Qed.

Lemma watchlist_fetch_error_witness :
  watchlist (source_except "AAPL" (Raise (DownloadError "no network"))) 0
    ("AAPL" :: ["GOOGL"; "AMZN"; "MSFT"])
  = ([Yf_download (Download_period "AAPL" "1d" "1m")],
     Raise (DownloadError "no network")).
Proof.
  apply (watchlist_fetch_error
           (source_except "AAPL" (Raise (DownloadError "no network"))) 0%Z).
  reflexivity.
Defined.

(** X23.  Likewise an exception raised by [process_data] on what the fetch
    returned leaves the loop, after the stage was entered and before any
    metric or warning is shown. *)
Theorem watchlist_process_data_error yf now symbol rest df e :
  yf (Download_period symbol "1d" "1m") = OK df →
  empty df = false →
  process_data df = Raise e →
  watchlist yf now (symbol :: rest)
  = ([Yf_download (Download_period symbol "1d" "1m"); Invoked "process_data"],
     Raise e).
Proof.
  intros Hfetch Hempty Hpd. apply watchlist_aborts.
  unfold watch_symbol, fetch_stock_data, download.
  rewrite decide_False by done. rewrite Hfetch, io_bind_OK, Hempty.
  cbn [negb]. unfold stage.
  rewrite process_data_flatten_columns_eq, Hpd. reflexivity.
Qed.

Lemma watchlist_process_data_error_witness :
  watchlist (source_except "AAPL" (OK (quote_without_timestamps "AAPL"))) 0
    ("AAPL" :: ["GOOGL"; "AMZN"; "MSFT"])
  = ([Yf_download (Download_period "AAPL" "1d" "1m"); Invoked "process_data"],
     Raise (AttributeError "tzinfo")).
Proof.
  apply (watchlist_process_data_error
           (source_except "AAPL" (OK (quote_without_timestamps "AAPL"))) 0%Z
           "AAPL" ["GOOGL"; "AMZN"; "MSFT"] (quote_without_timestamps "AAPL")).
  - reflexivity.
  - reflexivity.
  - reflexivity.
Defined.

(** X24.  For a symbol whose quote goes through the Normalizer, the loop
    shows the last close, with a change that is the binary64 difference of
    that close and the first Open of the quote (not the first Close, as in
    the main chart) and a percent change that is this change divided by
    that Open and then multiplied by 100, each in binary64; then it goes on
    with the remaining symbols. *)
Theorem watchlist_metric yf now symbol rest df t labels closes opens last
    first_open :
  yf (Download_period symbol "1d" "1m") = OK df →
  empty df = false →
  process_data df = OK t →
  columns (normalize_column_names t) = Index labels →
  NoDup labels →
  column (normalize_column_names t) "Close" = Some (prices closes) →
  column (normalize_column_names t) "Open" = Some (prices opens) →
  closes !! (length closes - 1)%nat = Some last →
  opens !! 0%nat = Some first_open →
  ¬ (first_open == 0)%Q →
  watchlist yf now (symbol :: rest)
  = (([Yf_download (Download_period symbol "1d" "1m");
       Invoked "process_data"; Invoked "normalize_column_names";
       Sidebar_metric symbol (Some last)
         (difference last first_open,
          percent_of (difference last first_open) first_open)]
      ++ (watchlist yf now rest).1)%list,
     (watchlist yf now rest).2).
Proof.
  intros Hfetch Hempty Hpd Hc Hnd Hclose Hopen Hlast Hfirst Hnz.
  assert (Qeq_bool first_open 0 = false) as Hq.
  { destruct (Qeq_bool first_open 0) eqn:E; [|done].
    by apply Qeq_bool_iff in E. }
  apply watchlist_continues.
  unfold watch_symbol, fetch_stock_data, download.
  rewrite decide_False by done. rewrite Hfetch, io_bind_OK, Hempty.
  cbn [negb]. unfold stage.
  rewrite process_data_flatten_columns_eq, Hpd, io_bind_OK, io_bind_OK.
  unfold watch_metric.
  rewrite (getitem_column _ labels "Close" _ Hc Hnd Hclose), io_bind_lift_OK.
  rewrite (float_iloc_last closes last Hlast), io_bind_lift_OK.
  rewrite (getitem_column _ labels "Open" _ Hc Hnd Hopen), io_bind_lift_OK.
  rewrite (float_iloc_first opens first_open Hfirst), io_bind_lift_OK.
  cbn [fdiv]. rewrite Hq, io_bind_lift_OK.
  unfold percent_of, fmul, fsub, difference.
  by destruct (of_float (to_float last - to_float first_open)).
Qed.

Lemma watchlist_metric_witness :
  watchlist (quote_source) 0 ("MSFT" :: [])
  = (([Yf_download (Download_period "MSFT" "1d" "1m");
       Invoked "process_data"; Invoked "normalize_column_names";
       Sidebar_metric "MSFT" (Some 102%Q)
         (difference 102 100, percent_of (difference 102 100) 100)]
      ++ (watchlist (quote_source) 0 []).1)%list,
     (watchlist (quote_source) 0 []).2).
Proof.
  eapply (watchlist_metric (quote_source) 0%Z "MSFT" []
            (quote "MSFT") _
            ["Datetime"; "Close"; "High"; "Low"; "Open"; "Volume"]
            [101; 102]%Q [100; 101]%Q).
  - reflexivity.
  - reflexivity.
  - reflexivity.
  - reflexivity.
  - by apply (bool_decide_unpack _).
  - reflexivity.
  - reflexivity.
  - reflexivity.
  - reflexivity.
  - intros H. discriminate H.
Defined.

Lemma requests_of_app l k :
  requests_of (l ++ k) = (requests_of l ++ requests_of k)%list.
Proof. unfold requests_of. apply omap_app. Qed.

Lemma offline_requests {A} (m : io A) : offline m → requests_of m.1 = [].
Proof.
  unfold offline, requests_of. induction (m.1) as [|ev l IH]; intros H; [done|].
  cbn [omap list_omap]. destruct ev; try (apply IH; intros req Hin;
    apply (H req); by right).
  exfalso. eapply H. constructor.
Qed.

Lemma watch_symbol_requests yf now symbol :
  requests_of (watch_symbol yf now symbol).1
  = [Download_period symbol "1d" "1m"].
Proof.
  unfold watch_symbol, fetch_stock_data, download.
  rewrite decide_False by done.
  destruct (yf _) as [df|e]; [|reflexivity].
  rewrite io_bind_OK. cbn [fst].
  change (Yf_download ?r :: ?l)%list with ([Yf_download r] ++ l)%list.
  rewrite requests_of_app, offline_requests; [reflexivity|].
  cbv zeta. destruct (negb (empty df)); [|apply offline_ret].
  apply offline_bind; [apply offline_stage|intros t].
  apply offline_bind; [apply offline_stage|intros t'].
  apply offline_try_except; [apply offline_watch_metric|].
  intros e. apply offline_emit. discriminate.
Qed.

(** X25.  The watchlist loop fetches the symbols in the order of the list,
    each once, for the period 1d at interval 1m: the requests it makes are
    those of an initial part of the list, and of the whole list when the
    loop returns normally. *)
Theorem watchlist_requests_in_order yf now symbols :
  ∃ k, (k ≤ length symbols)%nat
       ∧ requests_of (watchlist yf now symbols).1
         = (λ s, Download_period s "1d" "1m") <$> take k symbols
       ∧ ((watchlist yf now symbols).2 = OK () → k = length symbols).
Proof.
  unfold watchlist. induction symbols as [|s symbols (k & Hk & Hreq & Hall)].
  { exists 0%nat. by repeat split. }
  rewrite for_each_cons.
  pose proof (watch_symbol_requests yf now s) as Hs.
  destruct (watch_symbol yf now s) as [out [[]|e]].
  - rewrite io_bind_OK. cbn [fst snd] in *.
    exists (S k). split; [cbn; lia|]. split.
    + rewrite requests_of_app, Hs, Hreq. reflexivity.
    + intros H. cbn. f_equal. by apply Hall.
  - rewrite io_bind_Raise. cbn [fst snd] in *.
    exists 1%nat. split; [cbn; lia|]. split; [|done].
    rewrite Hs. cbn. by rewrite take_0.
Qed.

(** ** The main chart on a canonical table *)

Lemma elem_of_setitem_labels (n l : string) labels :
  l ∈ labels →
  l ∈ (if decide (n ∈ labels) then labels else (labels ++ [n])%list).
Proof. intros H. case_decide; [done|]. apply elem_of_app. by left. Qed.

Lemma setitem_labels_inv (n l : string) labels :
  l ∈ (if decide (n ∈ labels) then labels else (labels ++ [n])%list) →
  l ∈ labels ∨ l = n.
Proof.
  case_decide; [by left|].
  intros [Hl|Hl%list_elem_of_singleton]%elem_of_app; [by left|by right].
Qed.

Lemma add_technical_indicators_canonical_aux ema t :
  canonical t →
  ∃ t' close,
    column t "Close" = Some (Float64 close)
    ∧ add_technical_indicators ema t = OK t'
    ∧ canonical t' ∧ len t' = len t
    ∧ column t' "SMA_20" = Some (Float64 (sma_indicator close 20))
    ∧ column t' "EMA_20" = Some (Float64 (ema close 20))
    ∧ ∀ n, n ≠ "SMA_20" → n ≠ "EMA_20" → column t' n = column t n.
Proof.
  intros Hcan.
  pose proof Hcan as
    (labels & Hc & Hlen & Hnd & Hhas & Hallowed & (ts & Hdt & Hts) & Hnum).
  assert (aligned t labels) as Hal by done.
  assert (∃ qs, column t "Close" = Some (prices qs)) as [qs Hclose].
  { rewrite Forall_forall in Hnum.
    destruct (Hnum "Close") as (qs & Hq & _); [repeat constructor|].
    by exists qs. }
  set (close := Some <$> qs).
  set (s := Float64 (sma_indicator close 20)).
  set (e := Float64 (ema close 20)).
  pose proof (setitem_labels t labels "SMA_20" s Hal) as Hal1.
  pose proof (setitem_NoDup labels "SMA_20" Hnd) as Hnd1.
  pose proof (setitem_labels _ _ "EMA_20" e Hal1) as Hal2.
  pose proof (setitem_NoDup _ "EMA_20" Hnd1) as Hnd2.
  assert (∀ n, n ≠ "SMA_20" → n ≠ "EMA_20" →
               column (setitem (setitem t "SMA_20" s) "EMA_20" e) n
               = column t n) as Hkeep.
  { intros n Hs He.
    rewrite (column_setitem_other _ _ "EMA_20" n _ Hal1) by done.
    by rewrite (column_setitem_other _ _ "SMA_20" n _ Hal) by done. }
  assert (len (setitem (setitem t "SMA_20" s) "EMA_20" e) = len t) as Hrows
    by (unfold len; by rewrite !index_setitem).
  exists (setitem (setitem t "SMA_20" s) "EMA_20" e), close.
  split; [done|].
  split; [by apply (add_technical_indicators_OK ema t labels close)|].
  split; [|split; [done|split; [|split; [|done]]]].
  - eexists. split; [apply Hal2|]. split; [apply Hal2|].
    split; [done|]. split; [|split; [|split]].
    + eapply Forall_impl; [exact Hhas|]. intros n Hn.
      by do 2 apply elem_of_setitem_labels.
    + apply Forall_forall. intros l Hl.
      apply setitem_labels_inv in Hl as [Hl| ->];
        [|by apply (bool_decide_unpack _)].
      apply setitem_labels_inv in Hl as [Hl| ->];
        [|by apply (bool_decide_unpack _)].
      rewrite Forall_forall in Hallowed. by apply Hallowed.
    + exists ts. rewrite Hkeep by done. by rewrite Hrows.
    + assert ("SMA_20" ∉ ohlcv) as Hs by (by apply (bool_decide_unpack _)).
      assert ("EMA_20" ∉ ohlcv) as He by (by apply (bool_decide_unpack _)).
      apply Forall_forall. intros n Hn. rewrite Forall_forall in Hnum.
      destruct (Hnum n Hn) as (qs' & Hq & Hl).
      exists qs'. rewrite Hrows, Hkeep; [done|by intros ->..].
  - rewrite (column_setitem_other _ _ "EMA_20" "SMA_20" _ Hal1) by done.
    by apply (column_setitem_same _ _ _ _ Hal).
  - by apply (column_setitem_same _ _ _ _ Hal1).
Qed.

(** X26.  [add_technical_indicators] keeps a canonical table canonical, with
    the same rows: what the chart and the tables are drawn from after the
    indicators were added still has each of the six columns exactly once. *)
Theorem add_technical_indicators_canonical ema t :
  canonical t →
  ∃ t', add_technical_indicators ema t = OK t'
        ∧ canonical t' ∧ len t' = len t.
Proof.
  intros Hcan.
  destruct (add_technical_indicators_canonical_aux ema t Hcan)
    as (t' & close & _ & Hadd & Hcan' & Hrows & _).
  by exists t'.
Qed.

Lemma add_technical_indicators_canonical_witness :
  ∃ t', add_technical_indicators blank_ema three_rows = OK t'
        ∧ canonical t' ∧ len t' = len three_rows.
Proof.
  apply (add_technical_indicators_canonical blank_ema three_rows).
  by apply table_canonical.
Defined.

Lemma io_bind_after {A B} (f : A → io B) out a :
  ((out, OK a) ≫= f) = after out (f a).
Proof. reflexivity. Qed.

Lemma chart_branch_OK chart_type t :
  canonical t →
  ∃ warn base, chart_branch chart_type t = (warn, OK base).
Proof.
  intros Hcan.
  pose proof Hcan as (labels & Hc & _ & Hnd & Hhas & _ & (ts & Hdt & _) & Hnum).
  unfold ohlcv in Hhas, Hnum. rewrite !Forall_cons in Hhas, Hnum.
  destruct Hhas as (Hdti & _ & _ & _ & Hcl & _).
  destruct Hnum as ((o & Ho & _) & (h & Hh & _) & (l & Hl & _) & (c & Hcc & _) & _).
  unfold chart_branch.
  destruct (bool_decide (chart_type = "Candlestick") && (5 <=? len t)%nat).
  - rewrite (canonical_getitem t "Datetime" _ Hcan Hdt), io_bind_lift_OK.
    rewrite (canonical_getitem t "Open" _ Hcan Ho), io_bind_lift_OK.
    rewrite (canonical_getitem t "High" _ Hcan Hh), io_bind_lift_OK.
    rewrite (canonical_getitem t "Low" _ Hcan Hl), io_bind_lift_OK.
    rewrite (canonical_getitem t "Close" _ Hcan Hcc), io_bind_lift_OK.
    by eexists _, _.
  - unfold px_line. rewrite Hc, decide_True by done.
    destruct (bool_decide (chart_type = "Candlestick")); by eexists _, _.
Qed.

(** X27.  What the main chart shows when everything succeeds.  For a fetch
    of at least two rows that the Normalizer turns into a canonical table
    whose first close is not zero, the handler enters the four stages in
    the order process_data, normalize_column_names, calculate_metrics,
    add_technical_indicators, and only then displays: the four metrics
    (last price with change and percent change, high, low, volume), what
    the chart branch emits, the chart with one overlay per selected
    indicator, the history table with the columns in the fixed order
    Datetime, Open, High, Low, Close, Volume whatever their order in the
    table, and the table of Datetime, SMA_20 and EMA_20. *)
Theorem main_chart_success yf now ema libsum ticker period chart_type indicators
    interval df t closes first last :
  interval_mapping !! period = Some interval →
  yf (request_for now ticker period interval) = OK df →
  empty df = false → (2 ≤ len df)%nat →
  normalizer df = OK t →
  canonical t →
  column t "Close" = Some (prices closes) →
  closes !! 0%nat = Some first →
  closes !! (len t - 1)%nat = Some last →
  ¬ (first == 0)%Q →
  ∃ m t' warn base dt o h l c v sma ema_20,
    calculate_metrics libsum t = OK m
    ∧ add_technical_indicators ema t = OK t'
    ∧ chart_branch chart_type t' = (warn, OK base)
    ∧ column t "Datetime" = Some dt ∧ column t "Open" = Some o
    ∧ column t "High" = Some h ∧ column t "Low" = Some l
    ∧ column t "Close" = Some c ∧ column t "Volume" = Some v
    ∧ column t' "SMA_20" = Some sma ∧ column t' "EMA_20" = Some ema_20
    ∧ main_chart yf now ema libsum ticker period chart_type indicators
      = (([Yf_download (request_for now ticker period interval);
           Invoked "process_data"; Invoked "normalize_column_names";
           Invoked "calculate_metrics"; Invoked "add_technical_indicators";
           St_metric (ticker +:+ " Last Price") (last_close m)
             (Some (change m, pct_change m));
           St_metric "High" (high m) None;
           St_metric "Low" (low m) None;
           St_metric "Volume" (Some (inject_Z (volume m))) None]
          ++ warn
          ++ [St_plotly_chart
                (base ++ omap (overlay_of (Col dt) (Col sma) (Col ema_20))
                           indicators)
                ticker period;
              St_subheader "Historical Data";
              St_dataframe [dt; o; h; l; c; v];
              St_subheader "Technical Indicators";
              St_dataframe [dt; sma; ema_20]])%list,
         OK ()).
Proof.
  intros Hmap Hfetch Hempty Hlen Hnorm Hcan HC Hfirst Hlast Hnz.
  assert (∃ t0, process_data df = OK t0 ∧ t = normalize_column_names t0)
    as (t0 & Hpd & ->).
  { unfold normalizer in Hnorm. destruct (process_data df) as [t0|e]; [|done].
    injection Hnorm as <-. by exists t0. }
  pose proof Hcan as (labels & Hc & _ & Hnd & _ & _ & (ts & Hdt & _) & Hnum).
  unfold ohlcv in Hnum. rewrite !Forall_cons in Hnum.
  destruct Hnum as ((o & Ho & _) & (h & Hh & _) & (l & Hl & _) & _
                    & (v & Hv & _) & _).
  pose proof (calculate_metrics_value libsum _ closes h l v first last Hcan
                HC Hh Hl Hv Hfirst Hlast Hnz) as Hcm.
  destruct (add_technical_indicators_canonical_aux ema _ Hcan)
    as (t' & close & _ & Hadd & Hcan' & _ & Hsma & Hema & Hkeep).
  destruct (chart_branch_OK chart_type t' Hcan') as (warn & base & Hcb).
  assert (∀ n s, n ≠ "SMA_20" → n ≠ "EMA_20" →
                 column (normalize_column_names t0) n = Some s →
                 getitem t' n = OK (Col s)) as Hget.
  { intros n s ? ? Hn. apply (canonical_getitem _ _ _ Hcan').
    by rewrite Hkeep. }
  pose proof (canonical_getitem _ _ _ Hcan' Hsma) as Hgs.
  pose proof (canonical_getitem _ _ _ Hcan' Hema) as Hge.
  eexists _, t', warn, base, _, _, _, _, _, _, _, _.
  split; [exact Hcm|]. split; [exact Hadd|]. split; [exact Hcb|].
  do 6 (split; [eassumption|]). do 2 (split; [eassumption|]).
  unfold main_chart, dict_get. rewrite Hmap, io_bind_lift_OK.
  assert (fetch_stock_data yf now ticker period interval
          = ([Yf_download (request_for now ticker period interval)],
             OK df)) as ->.
  { rewrite <- Hfetch.
    unfold fetch_stock_data, download, request_for, timedelta_days.
    by case_decide. }
  rewrite io_bind_after, Hempty.
  replace (len df <? 2)%nat with false by (symmetry; apply Nat.ltb_ge; lia).
  cbn [orb]. unfold stage, emit.
  rewrite Hpd, io_bind_after, io_bind_after, Hcm, io_bind_after, Hadd.
  rewrite !io_bind_after, Hcb, io_bind_after.
  rewrite (add_overlays_omap indicators t' base _ _ _
             (Hget "Datetime" _ ltac:(done) ltac:(done) Hdt) Hgs Hge).
  rewrite io_bind_lift_OK, !io_bind_after.
  cbn [getitems].
  rewrite (Hget "Datetime" _ ltac:(done) ltac:(done) Hdt),
    (Hget "Open" _ ltac:(done) ltac:(done) Ho),
    (Hget "High" _ ltac:(done) ltac:(done) Hh),
    (Hget "Low" _ ltac:(done) ltac:(done) Hl),
    (Hget "Close" _ ltac:(done) ltac:(done) HC),
    (Hget "Volume" _ ltac:(done) ltac:(done) Hv), Hgs, Hge.
  repeat first
    [rewrite bind_OK | rewrite io_bind_lift_OK | rewrite io_bind_after].
  cbn [after app]. unfold try_except. reflexivity.
Qed.

Lemma normal_three_canonical : canonical normal_three.
Proof.
  exists ["Datetime"; "Close"; "High"; "Low"; "Open"; "Volume"].
  split; [done|]. split; [done|].
  split; [by apply (bool_decide_unpack _)|].
  split; [by apply (bool_decide_unpack _)|].
  split; [by apply (bool_decide_unpack _)|].
  split; [by eexists|].
  unfold ohlcv. repeat apply Forall_cons_2; [..|apply Forall_nil_2];
    eexists; (split; [reflexivity|reflexivity]).
Qed.

Lemma main_chart_success_witness :
  ∃ m t' warn base dt o h l c v sma ema_20,
    calculate_metrics blank_sum normal_three = OK m
    ∧ add_technical_indicators blank_ema normal_three = OK t'
    ∧ chart_branch "Candlestick" t' = (warn, OK base)
    ∧ column normal_three "Datetime" = Some dt
    ∧ column normal_three "Open" = Some o
    ∧ column normal_three "High" = Some h
    ∧ column normal_three "Low" = Some l
    ∧ column normal_three "Close" = Some c
    ∧ column normal_three "Volume" = Some v
    ∧ column t' "SMA_20" = Some sma ∧ column t' "EMA_20" = Some ema_20
    ∧ main_chart (constant_source raw_three) 0 blank_ema blank_sum "XYZ" "1d"
        "Candlestick" ["SMA 20"]
      = (([Yf_download (request_for 0 "XYZ" "1d" "5m");
           Invoked "process_data"; Invoked "normalize_column_names";
           Invoked "calculate_metrics"; Invoked "add_technical_indicators";
           St_metric ("XYZ" +:+ " Last Price") (last_close m)
             (Some (change m, pct_change m));
           St_metric "High" (high m) None;
           St_metric "Low" (low m) None;
           St_metric "Volume" (Some (inject_Z (volume m))) None]
          ++ warn
          ++ [St_plotly_chart
                (base ++ omap (overlay_of (Col dt) (Col sma) (Col ema_20))
                           ["SMA 20"])
                "XYZ" "1d";
              St_subheader "Historical Data";
              St_dataframe [dt; o; h; l; c; v];
              St_subheader "Technical Indicators";
              St_dataframe [dt; sma; ema_20]])%list,
         OK ()).
Proof.
  apply (main_chart_success (constant_source raw_three) 0%Z blank_ema
           blank_sum "XYZ" "1d" "Candlestick" ["SMA 20"] "5m" raw_three
           normal_three
           [11; 12; 13]%Q 11%Q 13%Q).
  - reflexivity.
  - reflexivity.
  - reflexivity.
  - cbn. lia.
  - reflexivity.
  - exact normal_three_canonical.
  - reflexivity.
  - reflexivity.
  - reflexivity.
  - intros H. discriminate H.
Defined.
